(** * Chef: context assembly under a token budget

    A shallow embedding of [src/core/context/Chef.ts] (the resolver
    [prepare]/[invokeRecipe], the lineage tracer [trace] and the three
    phases of [cook]) and of [src/core/context/Cookbook.ts]
    ([parseIngredientSpec] and the [cookbook] registration decorator).

    Conventions of the embedding:
    - JavaScript numbers that carry token costs and priority scores are
      integers ([Z]); the default tokenizer [ceil(length / 4)] and the
      default ranking table only produce integers.
    - An [async] function is run to completion: a settled promise is either
      a returned value or a thrown error.  Unbounded recursion is modelled
      with fuel; [OutOfFuel] is not an error of the program and is never
      caught by the [try]/[catch] of the program.
    - The identity of a recipe class (the key of [valueCache] and
      [instanceCache]) is its [ctor_id].
    - [invoked] is a ghost field of the engine state: it records each call
      of a recipe's [prepare] method, most recent first. *)

From Stdlib Require Import ZArith String Ascii List Lia Permutation Sorted DecimalString.
From stdpp Require Import base option list gmap strings.

Local Open Scope string_scope.
Set Warnings "-register-all".

(** ** Values, errors and outcomes *)

(** A JavaScript value as far as JSON-like provider outputs go. *)
Inductive value : Type :=
| VUndefined
| VNull
| VBool (b : bool)
| VNum (n : Z)
| VStr (s : string)
| VArr (items : list value)
| VObj (fields : list (string * value)).

(** The errors thrown in [Chef.ts], by the line that throws them, and the
    errors thrown by caller-supplied code. *)
Inductive error : Type :=
| UnresolvedToken (token : string)                         (* prepare, l.684 *)
| ContractViolation (rootToken : string) (jsonPath : option string)
                                                          (* invokeRecipe, l.737 *)
| TraceTokenNotFound (token : string)                      (* trace, l.623 *)
| Raised (message : string).                               (* user code *)

(** What caller-supplied code (a recipe, a pantry supplier, a tokenizer)
    does when it is awaited: it returns or it throws. *)
Inductive completion (A : Type) : Type :=
| Return (a : A)
| Raise (e : error).
Arguments Return {A} a.
Arguments Raise {A} e.

(** What a function of the engine does: it returns, it throws, or the
    recursion has not finished within the fuel given. *)
Inductive outcome (A : Type) : Type :=
| Ok (a : A)
| Throw (e : error)
| OutOfFuel.
Arguments Ok {A} a.
Arguments Throw {A} e.
Arguments OutOfFuel {A}.

Definition lift {A : Type} (c : completion A) : outcome A :=
  match c with
  | Return a => Ok a
  | Raise e => Throw e
  end.

Definition is_Ok {A : Type} (o : outcome A) : bool :=
  match o with Ok _ => true | _ => false end.

Definition is_Throw {A : Type} (o : outcome A) : bool :=
  match o with Throw _ => true | _ => false end.

Definition is_undefined (v : value) : bool :=
  match v with VUndefined => true | _ => false end.

(** ** Strings as JavaScript uses them *)

Module JsString.

Definition is_space (c : ascii) : bool :=
  match nat_of_ascii c with
  | 9 | 10 | 11 | 12 | 13 | 32 => true
  | _ => false
  end.

Fixpoint trimStart (s : string) : string :=
  match s with
  | String c rest => if is_space c then trimStart rest else s
  | EmptyString => EmptyString
  end.

Fixpoint rev_acc (s acc : string) : string :=
  match s with
  | String c rest => rev_acc rest (String c acc)
  | EmptyString => acc
  end.

Definition reverse (s : string) : string := rev_acc s EmptyString.

(** [s.trim()] *)
Definition trim (s : string) : string :=
  reverse (trimStart (reverse (trimStart s))).

(** [s.indexOf(".")], [None] for -1 *)
Fixpoint indexOf_dot (s : string) : option nat :=
  match s with
  | EmptyString => None
  | String c rest =>
      if Ascii.eqb c "."%char then Some 0
      else S <$> indexOf_dot rest
  end.

(** [s.slice(n)] for [0 <= n] *)
Fixpoint slice_from (n : nat) (s : string) : string :=
  match n, s with
  | 0, _ => s
  | S n', String _ rest => slice_from n' rest
  | S _, EmptyString => EmptyString
  end.

(** [s.slice(0, n)] for [0 <= n] *)
Fixpoint slice_to (n : nat) (s : string) : string :=
  match n, s with
  | 0, _ => EmptyString
  | S n', String c rest => String c (slice_to n' rest)
  | S _, EmptyString => EmptyString
  end.

Definition lower_char (c : ascii) : ascii :=
  let n := nat_of_ascii c in
  if (65 <=? n)%nat && (n <=? 90)%nat then ascii_of_nat (n + 32) else c.

(** [s.toLowerCase()] on ASCII *)
Fixpoint toLowerCase (s : string) : string :=
  match s with
  | EmptyString => EmptyString
  | String c rest => String (lower_char c) (toLowerCase rest)
  end.

Definition dquote : string := String (ascii_of_nat 34) EmptyString.

(** Truthiness of a string: the empty string is falsy. *)
Definition truthy (s : string) : bool :=
  match s with EmptyString => false | String _ _ => true end.

(** Truthiness of [string | undefined]. *)
Definition truthy_opt (s : option string) : bool :=
  match s with Some s' => truthy s' | None => false end.

(** [lines.join(sep)] *)
Fixpoint join (sep : string) (lines : list string) : string :=
  match lines with
  | [] => EmptyString
  | [l] => l
  | l :: rest => l +:+ sep +:+ join sep rest
  end.

End JsString.

(** ** Sub-path extraction *)

Module JsonPath.

Inductive segment : Type :=
| Field (name : string)
| Index (i : nat).

Inductive mode : Type :=
| Idle
| InField (acc : string)
| InIndex (acc : option nat).

Definition digit_of (c : ascii) : option nat :=
  let n := nat_of_ascii c in
  if (48 <=? n)%nat && (n <=? 57)%nat then Some (n - 48) else None.

Definition close_field (acc : string) (done : list segment) : option (list segment) :=
  match acc with
  | EmptyString => None
  | _ => Some (Field (JsString.reverse acc) :: done)
  end.

(** One pass over the characters after the leading [$]; [done] holds the
    segments read so far, last one first. *)
Fixpoint scan (s : string) (m : mode) (done : list segment) : option (list segment) :=
  match s with
  | EmptyString =>
      match m with
      | Idle => Some (rev done)
      | InField acc => done' ← close_field acc done; Some (rev done')
      | InIndex _ => None
      end
  | String c rest =>
      match m with
      | Idle =>
          if Ascii.eqb c "."%char then scan rest (InField EmptyString) done
          else if Ascii.eqb c "["%char then scan rest (InIndex None) done
          else None
      | InField acc =>
          if Ascii.eqb c "."%char then
            done' ← close_field acc done; scan rest (InField EmptyString) done'
          else if Ascii.eqb c "["%char then
            done' ← close_field acc done; scan rest (InIndex None) done'
          else scan rest (InField (String c acc)) done
      | InIndex acc =>
          if Ascii.eqb c "]"%char then
            i ← acc; scan rest Idle (Index i :: done)
          else
            d ← digit_of c;
            scan rest (InIndex (Some (default 0%nat acc * 10 + d)%nat)) done
      end
  end.

(** [$.a.b[1]] is [[Field "a"; Field "b"; Index 1]]. *)
Definition parse (path : string) : option (list segment) :=
  match path with
  | String "$" rest => scan rest Idle []
  | _ => None
  end.

Fixpoint get_field (name : string) (fields : list (string * value)) : value :=
  match fields with
  | [] => VUndefined
  | (k, v) :: rest => if String.eqb k name then v else get_field name rest
  end.

Definition step (v : value) (seg : segment) : value :=
  match seg, v with
  | Field name, VObj fields => get_field name fields
  | Index i, VArr items => default VUndefined (items !! i)
  | _, _ => VUndefined
  end.

Definition walk (json : value) (segs : list segment) : value :=
  foldl step json segs.

End JsonPath.

(** Modelled from the spec: [JSONPath] is the function of the external
    library [jsonpath-plus], called with [wrap: false]; its source is not
    part of the repository.  The spec gives the sub-path grammar ([.field]
    and [[index]], chained) and the result: the single value addressed, or
    [undefined] when nothing is addressed.  A path outside that grammar
    addresses nothing here. *)
Definition JSONPath (json : value) (path : string) : value :=
  match JsonPath.parse path with
  | Some segs => JsonPath.walk json segs
  | None => VUndefined
  end.

(** ** Cookbook.ts *)

Record IngredientDescriptor : Type := {
  rootToken : string;
  jsonPath : option string;
}.

(** [parseIngredientSpec]: split at the first dot; the tail becomes a
    JSONPath expression under [$]. *)
Definition parseIngredientSpec (spec : string) : IngredientDescriptor :=
  match JsString.indexOf_dot spec with
  | None => {| rootToken := spec; jsonPath := None |}
  | Some dotIndex =>
      let rootToken := JsString.trim (JsString.slice_to dotIndex spec) in
      let tail := JsString.trim (JsString.slice_from (dotIndex + 1) spec) in
      {| rootToken := rootToken; jsonPath := Some ("$." +:+ tail) |}
  end.

(** ** Recipes and the cookbook *)

Inductive PriorityTag : Type :=
| TagNumber (n : Z)
| TagString (s : string).

(** A recipe class as [Chef] reads it: its identity, its [name], the
    [@ingredient] metadata of its [prepare] method (a hole for a parameter
    without decorator), the [prepare] method itself and the static hints of
    [RecipeStaticHints].  A detail profile is taken as a transform of the
    value; the [ctx] argument that the source also passes is not modelled. *)
Record RecipeCtor : Type := {
  ctor_id : nat;
  name : string;
  static_token : option string;
  paramDescs : list (option IngredientDescriptor);
  recipe_prepare : list value → completion value;
  priority : option PriorityTag;
  compressible : bool;
  summaryRecipe : option string;
  detailProfiles : list (string * (value → completion value));
}.

(** [Chef.cookbook], a [Map]: keys are unique and iterate in the order of
    their first insertion. *)
Definition Cookbook : Type := list (string * RecipeCtor).

Fixpoint cookbook_get (token : string) (cb : Cookbook) : option RecipeCtor :=
  match cb with
  | [] => None
  | (k, ctor) :: rest => if String.eqb k token then Some ctor else cookbook_get token rest
  end.

(** [Chef.cookbook.set(token, ctor)] *)
Fixpoint cookbook_set (token : string) (ctor : RecipeCtor) (cb : Cookbook) : Cookbook :=
  match cb with
  | [] => [(token, ctor)]
  | (k, c) :: rest =>
      if String.eqb k token then (k, ctor) :: rest
      else (k, c) :: cookbook_set token ctor rest
  end.

Definition cookbook_keys (cb : Cookbook) : list string := map fst cb.

(** The [@cookbook] decorator *)
Definition register (ctor : RecipeCtor) (cb : Cookbook) : Cookbook :=
  cookbook_set (default (name ctor) (static_token ctor)) ctor cb.

(** ** The engine instance *)

Inductive ProviderOrValue : Type :=
| PantryValue (v : value)
| PantryProvider (get : completion value).

Record ChefState : Type := {
  instanceCache : gset nat;
  valueCache : gmap nat value;
  invoked : list nat;
}.

Definition fresh : ChefState :=
  {| instanceCache := ∅; valueCache := ∅; invoked := [] |}.

(** Computations of the engine: they read and update the caches, and
    return, throw or run out of fuel.  What was cached before a throw stays
    cached. *)
Definition M (A : Type) : Type := ChefState → outcome A * ChefState.

Definition ret {A : Type} (a : A) : M A := λ st, (Ok a, st).

Definition throw {A : Type} (e : error) : M A := λ st, (Throw e, st).

Definition bind {A B : Type} (c : M A) (k : A → M B) : M B :=
  λ st,
    match c st with
    | (Ok a, st') => k a st'
    | (Throw e, st') => (Throw e, st')
    | (OutOfFuel, st') => (OutOfFuel, st')
    end.

Definition await {A : Type} (c : completion A) : M A := λ st, (lift c, st).

Notation "'let*' x ':=' c 'in' k" := (bind c (λ x, k))
  (at level 10, x pattern, c at level 100, k at level 200).

Definition getInstance (ctor : RecipeCtor) : M unit :=
  λ st,
    if decide (ctor_id ctor ∈ instanceCache st) then (Ok (), st)
    else (Ok (), {| instanceCache := {[ctor_id ctor]} ∪ instanceCache st;
                   valueCache := valueCache st;
                   invoked := invoked st |}).

(** [instance.prepare(...resolvedArgs)], with the ghost record of the call *)
Definition call_prepare (ctor : RecipeCtor) (resolvedArgs : list value) : M value :=
  λ st,
    (lift (recipe_prepare ctor resolvedArgs),
     {| instanceCache := instanceCache st;
        valueCache := valueCache st;
        invoked := ctor_id ctor :: invoked st |}).

Definition valueCache_set (ctor : RecipeCtor) (cooked : value) : M unit :=
  λ st,
    (Ok (), {| instanceCache := instanceCache st;
               valueCache := <[ctor_id ctor := cooked]> (valueCache st);
               invoked := invoked st |}).

(** Step 2 of the loop of [invokeRecipe]: drill into the root value. *)
Definition drill (desc : IngredientDescriptor) (rootVal : value) : value :=
  match jsonPath desc with
  | Some path => if JsString.truthy path then JSONPath rootVal path else rootVal
  | None => rootVal
  end.

(** ** The data of [cook] *)

Record TraceEntry : Type := {
  trace_token : string;
  providerName : string;
  deps : list (string * string);
}.

Inductive OrderItem : Type :=
| OrderToken (token : string)
| OrderObject (token : string) (detail : option string).

Record NormalizedItem : Type := {
  order_token : string;
  order_detail : string;
  order_index : nat;
}.

Record RankInfo : Type := {
  info_token : string;
  info_recipeName : string;
  info_priorityTag : option PriorityTag;
  info_index : nat;
}.

Record CookOptions : Type := {
  order : option (list OrderItem);
  budget : option Z;
  countTokens : option (string → completion Z);
  rankPriority : option (RankInfo → completion Z);
  explain : bool;
}.

(** An element of [preparedItems]. *)
Module Prepared.
Record t : Type := {
  token : string;
  detailRequested : string;
  baselineRendered : string;
  baselineCost : Z;
  compressedRendered : option string;
  compressedCost : option Z;
  compressionNote : option string;
  trace : option (list TraceEntry);
  recipeName : string;
  priorityTag : option PriorityTag;
  priorityScore : Z;
  index : nat;
}.
End Prepared.

(** [PlanDecision] *)
Module Plan.
Record t : Type := {
  include : bool;
  forced : bool;
  usedCompressed : bool;
  usedRendered : string;
  usedCost : Z;
  reason : string;
}.
End Plan.

Inductive Decision : Type :=
| ForcedInclude
| Included
| Dropped.

(** [PlateInfo] *)
Module Plate.
Record t : Type := {
  token : string;
  decision : Decision;
  reason : string;
  servedDetail : string;
  priorityTag : option PriorityTag;
  priorityScore : Z;
  wasCompressed : bool;
  compressionNote : option string;
  originalCost : Z;
  compressedCost : option Z;
  cost : Z;
  runningTotalBefore : Z;
  runningTotalAfter : Z;
  lineage : list TraceEntry;
}.
End Plate.

Record CookExplainResult : Type := {
  context : string;
  totalTokens : Z;
  result_budget : option Z;
  plates : list Plate.t;
}.

(** What [cook] resolves to: the context alone, or the explained result. *)
Inductive CookOutput : Type :=
| ContextOnly (text : string)
| Explained (result : CookExplainResult).

(** ** Phase 2 of [cook]: selection under budget *)

Local Open Scope Z_scope.

Definition plan_baseline (item : Prepared.t) (forced : bool) (reason : string) : Plan.t :=
  {| Plan.include := true;
     Plan.forced := forced;
     Plan.usedCompressed := false;
     Plan.usedRendered := Prepared.baselineRendered item;
     Plan.usedCost := Prepared.baselineCost item;
     Plan.reason := reason |}.

Definition plan_compressed (forced : bool) (rendered : string) (cost : Z)
    (reason : string) : Plan.t :=
  {| Plan.include := true;
     Plan.forced := forced;
     Plan.usedCompressed := true;
     Plan.usedRendered := rendered;
     Plan.usedCost := cost;
     Plan.reason := reason |}.

Definition plan_dropped (cand : Prepared.t) : Plan.t :=
  {| Plan.include := false;
     Plan.forced := false;
     Plan.usedCompressed := false;
     Plan.usedRendered := Prepared.baselineRendered cand;
     Plan.usedCost :=
       Z.min (Prepared.baselineCost cand)
             (default (Prepared.baselineCost cand) (Prepared.compressedCost cand));
     Plan.reason := "excluded due to budget/priority" |}.

(** The state of the selection: the [plan] map and [plannedTotal]. *)
Definition Selection : Type := gmap nat Plan.t * Z.

(** The body of the loop of the branch without budget. *)
Definition planUnbudgeted (sel : Selection) (item : Prepared.t) : Selection :=
  (<[Prepared.index item :=
       plan_baseline item (bool_decide (Prepared.index item = 0%nat))
         "no budget provided"]> (fst sel),
   snd sel + Prepared.baselineCost item).

(** The decision for the first item: its compressed form only when that is
    a non-empty text with a defined cost below the baseline cost. *)
Definition decideFirst (first : Prepared.t) : Plan.t :=
  match Prepared.compressedRendered first, Prepared.compressedCost first with
  | Some rendered, Some cost =>
      if JsString.truthy rendered && (cost <? Prepared.baselineCost first) then
        plan_compressed true rendered cost
          "first item is always included (compressed to save budget)"
      else plan_baseline first true "first item is always included"
  | _, _ => plan_baseline first true "first item is always included"
  end.

Definition planFirst (items : list Prepared.t) : Selection :=
  match items with
  | first :: _ =>
      (<[Prepared.index first := decideFirst first]> ∅,
       0 + Plan.usedCost (decideFirst first))
  | [] => (∅, 0)
  end.

(** [Math.min(a.baselineCost, a.compressedCost ?? Number.POSITIVE_INFINITY)] *)
Definition minCost (a : Prepared.t) : Z :=
  match Prepared.compressedCost a with
  | Some c => Z.min (Prepared.baselineCost a) c
  | None => Prepared.baselineCost a
  end.

(** The comparator given to [sort]: negative when [a] goes first. *)
Definition compareCandidates (a b : Prepared.t) : Z :=
  if negb (Prepared.priorityScore b =? Prepared.priorityScore a) then
    Prepared.priorityScore b - Prepared.priorityScore a
  else if negb (minCost a =? minCost b) then minCost a - minCost b
  else Z.of_nat (Prepared.index a) - Z.of_nat (Prepared.index b).

(** [Array.prototype.sort] is stable: elements that compare equal keep
    their order.  Insertion from the right computes that arrangement. *)
Module JsArray.
Section Sort.
Context {A : Type} (compare : A → A → Z).

Fixpoint insert (x : A) (sorted : list A) : list A :=
  match sorted with
  | [] => [x]
  | y :: rest =>
      if compare x y <=? 0 then x :: y :: rest
      else y :: insert x rest
  end.

Definition sort (l : list A) : list A := foldr insert [] l.
End Sort.
End JsArray.

(** [preparedItems.slice(1).sort(...)] *)
Definition candidates (items : list Prepared.t) : list Prepared.t :=
  JsArray.sort compareCandidates (drop 1 items).

(** The decision for one candidate at the running total [plannedTotal]. *)
Definition decideCandidate (budget plannedTotal : Z) (cand : Prepared.t) : Plan.t :=
  if plannedTotal + Prepared.baselineCost cand <=? budget then
    plan_baseline cand false "selected by priority within budget"
  else
    match Prepared.compressedRendered cand, Prepared.compressedCost cand with
    | Some rendered, Some cost =>
        if JsString.truthy rendered && (plannedTotal + cost <=? budget) then
          plan_compressed false rendered cost "compressed to fit budget"
        else plan_dropped cand
    | _, _ => plan_dropped cand
    end.

(** The body of the loop over the candidates. *)
Definition planCandidate (budget : Z) (sel : Selection) (cand : Prepared.t) : Selection :=
  let d := decideCandidate budget (snd sel) cand in
  (<[Prepared.index cand := d]> (fst sel),
   if Plan.include d then snd sel + Plan.usedCost d else snd sel).

Definition selectPlan (budget : option Z) (items : list Prepared.t) : Selection :=
  match budget with
  | None => foldl planUnbudgeted (∅, 0) items
  | Some b => foldl (planCandidate b) (planFirst items) (candidates items)
  end.

(** ** Phase 3 of [cook]: plating in the original order *)

(** The state of the plating loop: [includedLines], [runningTotal] and
    [plates]. *)
Record Plating : Type := {
  includedLines : list string;
  runningTotal : Z;
  platesSoFar : list Plate.t;
}.

Definition decisionOf (budget : option Z) (item : Prepared.t) (d : Plan.t) : Decision :=
  if negb (Plan.include d) then Dropped
  else
    match budget with
    | None => Included
    | Some _ => if bool_decide (Prepared.index item = 0%nat) then ForcedInclude else Included
    end.

Definition plateOf (budget : option Z) (item : Prepared.t) (d : Plan.t)
    (before after : Z) : Plate.t :=
  {| Plate.token := Prepared.token item;
     Plate.decision := decisionOf budget item d;
     Plate.reason := Plan.reason d;
     Plate.servedDetail := Prepared.detailRequested item;
     Plate.priorityTag := Prepared.priorityTag item;
     Plate.priorityScore := Prepared.priorityScore item;
     Plate.wasCompressed := Plan.usedCompressed d;
     Plate.compressionNote :=
       if Plan.usedCompressed d then Prepared.compressionNote item else None;
     Plate.originalCost := Prepared.baselineCost item;
     Plate.compressedCost := Prepared.compressedCost item;
     Plate.cost := Plan.usedCost d;
     Plate.runningTotalBefore := before;
     Plate.runningTotalAfter := after;
     Plate.lineage := default [] (Prepared.trace item) |}.

Definition newline : string := String (ascii_of_nat 10) EmptyString.

(** The body of the plating loop. *)
Definition plateItem (budget : option Z) (explain : bool) (plan : gmap nat Plan.t)
    (acc : Plating) (item : Prepared.t) : Plating :=
  match plan !! Prepared.index item with
  | None => acc
  | Some d =>
      let before := runningTotal acc in
      let lines :=
        if Plan.include d then (includedLines acc ++ [Plan.usedRendered d +:+ newline])%list
        else includedLines acc in
      let after :=
        if Plan.include d then runningTotal acc + Plan.usedCost d
        else runningTotal acc in
      {| includedLines := lines;
         runningTotal := after;
         platesSoFar :=
           if explain then (platesSoFar acc ++ [plateOf budget item d before after])%list
           else platesSoFar acc |}
  end.

Definition plating (budget : option Z) (explain : bool) (plan : gmap nat Plan.t)
    (items : list Prepared.t) : Plating :=
  foldl (plateItem budget explain plan)
    {| includedLines := []; runningTotal := 0; platesSoFar := [] |} items.

(** Phases 2 and 3 together: what [cook] returns for the prepared items. *)
Definition serve (budget : option Z) (explain : bool) (items : list Prepared.t)
    : CookOutput :=
  let done := plating budget explain (fst (selectPlan budget items)) items in
  let context := JsString.join newline (includedLines done) in
  if explain then
    Explained {| context := context;
                 totalTokens := runningTotal done;
                 result_budget := budget;
                 plates := platesSoFar done |}
  else ContextOnly context.

Local Close Scope Z_scope.

Section Kitchen.

Variable cookbook : Cookbook.
Variable pantry : gmap string ProviderOrValue.

(** The loop of [invokeRecipe] over the parameter descriptors, with the
    resolver to call for a root token. *)
Fixpoint resolveArgs (prep : string → M value)
    (descs : list (option IngredientDescriptor)) : M (list value) :=
  match descs with
  | [] => ret []
  | None :: rest =>
      let* args := resolveArgs prep rest in
      ret (VUndefined :: args)
  | Some desc :: rest =>
      let* rootVal := prep (rootToken desc) in
      let finalVal := drill desc rootVal in
      if is_undefined finalVal then
        throw (ContractViolation (rootToken desc) (jsonPath desc))
      else
        let* args := resolveArgs prep rest in
        ret (finalVal :: args)
  end.

Definition invokeRecipe_with (prep : string → M value) (ctor : RecipeCtor) : M value :=
  let* _ := getInstance ctor in
  let* resolvedArgs := resolveArgs prep (paramDescs ctor) in
  call_prepare ctor resolvedArgs.

Fixpoint prepare (fuel : nat) (token : string) : M value :=
  match fuel with
  | O => λ st, (OutOfFuel, st)
  | S fuel' =>
      match pantry !! token with
      | Some (PantryValue v) => ret v
      | Some (PantryProvider get) => await get
      | None =>
          match cookbook_get token cookbook with
          | None => throw (UnresolvedToken token)
          | Some ctor =>
              λ st,
                match valueCache st !! ctor_id ctor with
                | Some cached => (Ok cached, st)
                | None =>
                    (let* cooked := invokeRecipe_with (prepare fuel') ctor in
                     let* _ := valueCache_set ctor cooked in
                     ret cooked) st
                end
          end
      end
  end.

Definition invokeRecipe (fuel : nat) (ctor : RecipeCtor) : M value :=
  invokeRecipe_with (prepare fuel) ctor.

(** *** trace *)

(** The [seen] map of [trace], in insertion order. *)
Definition Seen : Type := list (string * TraceEntry).

Fixpoint seen_has (token : string) (seen : Seen) : bool :=
  match seen with
  | [] => false
  | (k, _) :: rest => String.eqb k token || seen_has token rest
  end.

Fixpoint seen_set (token : string) (entry : TraceEntry) (seen : Seen) : Seen :=
  match seen with
  | [] => [(token, entry)]
  | (k, e) :: rest =>
      if String.eqb k token then (k, entry) :: rest
      else (k, e) :: seen_set token entry rest
  end.

Definition prettyPath (desc : IngredientDescriptor) : string :=
  match jsonPath desc with
  | Some path =>
      if JsString.truthy path then "." +:+ JsString.slice_from 2 path
      else EmptyString
  | None => EmptyString
  end.

Definition via_of (desc : IngredientDescriptor) : string :=
  "@ingredient(" +:+ JsString.dquote +:+ rootToken desc +:+ prettyPath desc
    +:+ JsString.dquote +:+ ")".

(** The loop of [visit] over the parameter descriptors. *)
Fixpoint visitDeps (vis : string → Seen → outcome Seen)
    (descs : list (option IngredientDescriptor))
    (deps : list (string * string)) (seen : Seen)
    : outcome (list (string * string) * Seen) :=
  match descs with
  | [] => Ok (deps, seen)
  | None :: rest => visitDeps vis rest deps seen
  | Some desc :: rest =>
      match vis (rootToken desc) seen with
      | Ok seen' =>
          visitDeps vis rest (deps ++ [(rootToken desc, via_of desc)])%list seen'
      | Throw e => Throw e
      | OutOfFuel => OutOfFuel
      end
  end.

Fixpoint visit (fuel : nat) (token : string) (seen : Seen) : outcome Seen :=
  match fuel with
  | O => OutOfFuel
  | S fuel' =>
      if seen_has token seen then Ok seen
      else
        match pantry !! token with
        | Some _ =>
            Ok (seen_set token
                  {| trace_token := token; providerName := "pantry"; deps := [] |}
                  seen)
        | None =>
            match cookbook_get token cookbook with
            | None => Throw (TraceTokenNotFound token)
            | Some ctor =>
                match visitDeps (visit fuel') (paramDescs ctor) [] seen with
                | Ok (deps, seen') =>
                    Ok (seen_set token
                          {| trace_token := token;
                             providerName := name ctor;
                             deps := deps |}
                          seen')
                | Throw e => Throw e
                | OutOfFuel => OutOfFuel
                end
            end
        end
  end.

Definition trace (fuel : nat) (rootToken : string) : outcome (list TraceEntry) :=
  match visit fuel rootToken [] with
  | Ok seen => Ok (map snd seen)
  | Throw e => Throw e
  | OutOfFuel => OutOfFuel
  end.

(** *** Phase 1 of [cook]: preparing the requested items *)

(** [JSON.stringify], a built-in of the language: any function from
    values to texts that may throw.  (Its library type is [string]; that
    it answers [undefined] for [undefined] is outside this type.) *)
Variable JSON_stringify : value → completion string.

(** The fallback tokenizer, [Math.ceil(text.length / 4)]. *)
Definition countTokensDefault (text : string) : completion Z :=
  Return ((Z.of_nat (String.length text) + 3) / 4)%Z.

Definition countTokensFn (options : option CookOptions) : string → completion Z :=
  default countTokensDefault (options ≫= countTokens).

Definition priorityTable : list (string * Z) :=
  [("critical", 100); ("must", 90); ("high", 75); ("normal", 50);
   ("medium", 50); ("low", 25); ("optional", 10)]%Z.

Fixpoint table_get (key : string) (table : list (string * Z)) : option Z :=
  match table with
  | [] => None
  | (k, n) :: rest => if String.eqb k key then Some n else table_get key rest
  end.

(** The default ranking.  The table is read by its seven own keys; names
    that a JavaScript object inherits are not modelled. *)
Definition defaultRankPriority (info : RankInfo) : Z :=
  match info_priorityTag info with
  | Some (TagNumber n) => n
  | Some (TagString tag) =>
      default 50%Z (table_get (JsString.toLowerCase tag) priorityTable)
  | None => 50%Z
  end.

Definition rankPriorityFn (options : option CookOptions) : RankInfo → completion Z :=
  default (λ info, Return (defaultRankPriority info)) (options ≫= rankPriority).

Definition explainOf (options : option CookOptions) : bool :=
  from_option explain false options.

Definition budgetOf (options : option CookOptions) : option Z :=
  options ≫= budget.

Definition normalize (i : nat) (item : OrderItem) : NormalizedItem :=
  match item with
  | OrderToken token =>
      {| order_token := token; order_detail := "full"; order_index := i |}
  | OrderObject token detail =>
      {| order_token := token;
         order_detail := default "full" detail;
         order_index := i |}
  end.

Definition wholeCookbook : list NormalizedItem :=
  imap (λ i tok, {| order_token := tok; order_detail := "full"; order_index := i |})
       (cookbook_keys cookbook).

(** The entire cookbook is the order when [options.order] is missing or
    has length 0. *)
Definition orderListNormalized (options : option CookOptions) : list NormalizedItem :=
  match options ≫= order with
  | Some (first :: rest) => imap normalize (first :: rest)
  | Some [] => wholeCookbook
  | None => wholeCookbook
  end.

(** A text is plated verbatim, anything else through [JSON.stringify]. *)
Definition render (v : value) : completion string :=
  match v with
  | VStr s => Return s
  | _ => JSON_stringify v
  end.

Fixpoint profile_get (detail : string)
    (profiles : list (string * (value → completion value)))
    : option (value → completion value) :=
  match profiles with
  | [] => None
  | (k, f) :: rest => if String.eqb k detail then Some f else profile_get detail rest
  end.

Definition materialize (ctor : option RecipeCtor) (detail : string) (v : value)
    : completion value :=
  match ctor with
  | Some c =>
      match profile_get detail (detailProfiles c) with
      | Some profileFn => profileFn v
      | None => Return v
      end
  | None => Return v
  end.

(** The three local variables that the [try] block assigns. *)
Record Fallback : Type := {
  fb_rendered : option string;
  fb_cost : option Z;
  fb_note : option string;
}.

Definition noFallback : Fallback :=
  {| fb_rendered := None; fb_cost := None; fb_note := None |}.

(** The token whose [try] block runs for this item, if any. *)
Definition summaryTokenOf (ctor : option RecipeCtor) : option string :=
  match ctor with
  | Some c =>
      if compressible c && JsString.truthy_opt (summaryRecipe c)
      then summaryRecipe c else None
  | None => None
  end.

(** The statements of the [try] block in sequence: resolve the summary
    token, render it, cost it. *)
Definition summaryTry (fuel : nat) (options : option CookOptions)
    (summaryToken : string) : M (string * Z) :=
  let* summaryVal := prepare fuel summaryToken in
  let* summaryStr := await (render summaryVal) in
  let* cost := await (countTokensFn options summaryStr) in
  ret (summaryStr, cost).

(** The [try]/[catch]: a throw leaves the variables as they were assigned
    up to then ([compressedRendered] is assigned before the cost is
    computed), and is not rethrown. *)
Definition probeSummary (fuel : nat) (options : option CookOptions)
    (ctor : option RecipeCtor) : M Fallback :=
  match summaryTokenOf ctor with
  | None => ret noFallback
  | Some summaryToken =>
      λ st,
        match prepare fuel summaryToken st with
        | (Ok summaryVal, st') =>
            match render summaryVal with
            | Return summaryStr =>
                match countTokensFn options summaryStr with
                | Return cost =>
                    (Ok {| fb_rendered := Some summaryStr;
                           fb_cost := Some cost;
                           fb_note := Some ("compressed via " +:+ summaryToken) |},
                     st')
                | Raise _ =>
                    (Ok {| fb_rendered := Some summaryStr;
                           fb_cost := None;
                           fb_note := None |},
                     st')
                end
            | Raise _ => (Ok noFallback, st')
            end
        | (Throw _, st') => (Ok noFallback, st')
        | (OutOfFuel, st') => (OutOfFuel, st')
        end
  end.

Definition traceIf (fuel : nat) (explain : bool) (token : string)
    : M (option (list TraceEntry)) :=
  if explain then
    λ st,
      match trace fuel token with
      | Ok entries => (Ok (Some entries), st)
      | Throw e => (Throw e, st)
      | OutOfFuel => (OutOfFuel, st)
      end
  else ret None.

(** The body of the first loop of [cook]. *)
Definition prepareItem (fuel : nat) (options : option CookOptions)
    (it : NormalizedItem) : M Prepared.t :=
  let token := order_token it in
  let* v := prepare fuel token in
  let ctor := cookbook_get token cookbook in
  let recipeName := from_option name "pantry" ctor in
  let priorityTag := ctor ≫= priority in
  let* materialized := await (materialize ctor (order_detail it) v) in
  let* baselineRendered := await (render materialized) in
  let* baselineCost := await (countTokensFn options baselineRendered) in
  let* fb := probeSummary fuel options ctor in
  let* priorityScore :=
    await (rankPriorityFn options
             {| info_token := token;
                info_recipeName := recipeName;
                info_priorityTag := priorityTag;
                info_index := order_index it |}) in
  let* traceEntries := traceIf fuel (explainOf options) token in
  ret {| Prepared.token := token;
         Prepared.detailRequested := order_detail it;
         Prepared.baselineRendered := baselineRendered;
         Prepared.baselineCost := baselineCost;
         Prepared.compressedRendered := fb_rendered fb;
         Prepared.compressedCost := fb_cost fb;
         Prepared.compressionNote := fb_note fb;
         Prepared.trace := traceEntries;
         Prepared.recipeName := recipeName;
         Prepared.priorityTag := priorityTag;
         Prepared.priorityScore := priorityScore;
         Prepared.index := order_index it |}.

Fixpoint prepareItems (fuel : nat) (options : option CookOptions)
    (items : list NormalizedItem) : M (list Prepared.t) :=
  match items with
  | [] => ret []
  | it :: rest =>
      let* p := prepareItem fuel options it in
      let* ps := prepareItems fuel options rest in
      ret (p :: ps)
  end.

(** [cook]: the first loop, then selection and plating.  Every call of
    [prepare] and [trace] inside gets the fuel of the call. *)
Definition cook (fuel : nat) (options : option CookOptions) : M CookOutput :=
  let* preparedItems := prepareItems fuel options (orderListNormalized options) in
  ret (serve (budgetOf options) (explainOf options) preparedItems).

End Kitchen.

(** ** The [@ingredient] decorator of Cookbook.ts *)

(** [arr[i] = x] on a JavaScript array: an index past the end extends the
    array and leaves holes in between; a hole reads as [undefined]. *)
Definition array_set {A : Type} (i : nat) (x : A) (arr : list (option A))
    : list (option A) :=
  if (i <? length arr)%nat then <[i := Some x]> arr
  else (arr ++ replicate (i - length arr) None ++ [Some x])%list.

(** [propertyKey: string | symbol | undefined] *)
Inductive PropertyKey : Type :=
| KeyUndefined
| KeyString (s : string)
| KeySymbol (id : nat).

Definition key_truthy (propertyKey : PropertyKey) : bool :=
  match propertyKey with
  | KeyUndefined => false
  | KeyString s => JsString.truthy s
  | KeySymbol _ => true
  end.

(** The error of the decorator,
    [@ingredient can only be used on instance methods]. *)
Inductive DecoratorError : Type :=
| OnlyOnInstanceMethods.

(** [ingredient(spec)(target, propertyKey, parameterIndex)] on the metadata
    of [target] and [propertyKey]: [metadata] is what
    [Reflect.getOwnMetadata] answers ([None] for [undefined]), the result is
    what [Reflect.defineMetadata] stores for the same target and key.  A
    throw stores nothing. *)
Definition ingredient (spec : string) (propertyKey : PropertyKey)
    (parameterIndex : nat) (metadata : option (list (option IngredientDescriptor)))
    : DecoratorError + list (option IngredientDescriptor) :=
  let desc := parseIngredientSpec spec in
  if negb (key_truthy propertyKey) then inl OnlyOnInstanceMethods
  else
    let existing := default [] metadata in
    inr (array_set parameterIndex desc existing).

(** ** Vocabulary of the statements *)

Local Open Scope Z_scope.

Definition kept (p : Plate.t) : bool :=
  match Plate.decision p with
  | Dropped => false
  | ForcedInclude | Included => true
  end.

(** The plates account for a running total that starts at [start]. *)
Fixpoint chain (start : Z) (ps : list Plate.t) : Prop :=
  match ps with
  | [] => True
  | p :: rest =>
      Plate.runningTotalBefore p = start
      ∧ Plate.runningTotalAfter p = (if kept p then start + Plate.cost p else start)
      ∧ chain (Plate.runningTotalAfter p) rest
  end.

Fixpoint closing (start : Z) (ps : list Plate.t) : Z :=
  match ps with
  | [] => start
  | p :: rest => closing (Plate.runningTotalAfter p) rest
  end.

Definition keptCost (ps : list Plate.t) : Z :=
  foldr (λ p acc, if kept p then Plate.cost p + acc else acc) 0 ps.

(** Each prepared item carries its position in [preparedItems]. *)
Definition indexed (items : list Prepared.t) : Prop :=
  ∀ i p, items !! i = Some p → Prepared.index p = i.

(** Both loops of phase 2 have this shape: the decision for an item is a
    function of the running total at that point. *)
Definition planStep (decide_at : Z → Prepared.t → Plan.t) (advance : Z → Prepared.t → Z)
    (sel : Selection) (item : Prepared.t) : Selection :=
  (<[Prepared.index item := decide_at (snd sel) item]> (fst sel),
   advance (snd sel) item).

Definition advanceUnbudgeted (total : Z) (item : Prepared.t) : Z :=
  total + Prepared.baselineCost item.

Definition decideUnbudgeted (total : Z) (item : Prepared.t) : Plan.t :=
  plan_baseline item (bool_decide (Prepared.index item = 0%nat)) "no budget provided".

Definition advanceCandidate (budget total : Z) (cand : Prepared.t) : Z :=
  if Plan.include (decideCandidate budget total cand)
  then total + Plan.usedCost (decideCandidate budget total cand)
  else total.

Definition precedes {A : Type} (compare : A → A → Z) (x y : A) : Prop :=
  compare x y <= 0.

(** [a] is planned no later than [b]: higher priority score first, then
    the smaller cheapest cost, then the smaller original index. *)
Definition plannedBefore (a b : Prepared.t) : Prop :=
  Prepared.priorityScore b < Prepared.priorityScore a
  ∨ (Prepared.priorityScore a = Prepared.priorityScore b
     ∧ (minCost a < minCost b
        ∨ (minCost a = minCost b
           ∧ (Prepared.index a <= Prepared.index b)%nat))).

Definition contextOf (out : CookOutput) : string :=
  match out with
  | ContextOnly text => text
  | Explained r => context r
  end.

Definition requested (it : NormalizedItem) (p : Prepared.t) : Prop :=
  Prepared.token p = order_token it
  ∧ Prepared.detailRequested p = order_detail it
  ∧ Prepared.index p = order_index it.

#[global] Instance Decision_eq_dec : EqDecision Decision.
Proof. solve_decision. Defined.

Definition sumZ (costs : list Z) : Z := foldr Z.add 0 costs.

(** A plate of an item served as prepared, without compression. *)
Definition servedAtBaseline (p : Prepared.t) (plate : Plate.t) : Prop :=
  Plate.token plate = Prepared.token p
  ∧ Plate.decision plate = Included
  ∧ Plate.wasCompressed plate = false
  ∧ Plate.originalCost plate = Prepared.baselineCost p
  ∧ Plate.cost plate = Prepared.baselineCost p.

Definition baselineLine (p : Prepared.t) : string :=
  Prepared.baselineRendered p +:+ newline.

Definition initialPlating : Plating :=
  {| includedLines := []; runningTotal := 0; platesSoFar := [] |}.

(** The plates account for the running total in the order of the request. *)
Definition accountingChain (r : CookExplainResult) : Prop :=
  (∀ p, plates r !! 0%nat = Some p → Plate.runningTotalBefore p = 0)
  ∧ (∀ i p q, plates r !! i = Some p → plates r !! S i = Some q →
       Plate.runningTotalBefore q = Plate.runningTotalAfter p)
  ∧ (∀ p, p ∈ plates r →
       Plate.decision p = ForcedInclude ∨ Plate.decision p = Included →
       Plate.runningTotalAfter p = Plate.runningTotalBefore p + Plate.cost p)
  ∧ (∀ p, p ∈ plates r → Plate.decision p = Dropped →
       Plate.runningTotalAfter p = Plate.runningTotalBefore p)
  ∧ totalTokens r
    = sumZ (map Plate.cost (filter (λ p, Plate.decision p ≠ Dropped) (plates r)))
  ∧ (∀ p, last (plates r) = Some p → totalTokens r = Plate.runningTotalAfter p).

(** The decision for the first item: it is included and forced; its
    compressed form is used only when there is one and it costs less than
    the baseline, and then at that cost. *)
Definition firstDecisionRule (first : Prepared.t) (d : Plan.t) : Prop :=
  Plan.include d = true
  ∧ Plan.forced d = true
  ∧ (Plan.usedCompressed d = true →
       ∃ rendered cost,
         Prepared.compressedRendered first = Some rendered
         ∧ Prepared.compressedCost first = Some cost
         ∧ cost < Prepared.baselineCost first
         ∧ Plan.usedRendered d = rendered
         ∧ Plan.usedCost d = cost)
  ∧ (Plan.usedCompressed d = false →
       Plan.usedRendered d = Prepared.baselineRendered first
       ∧ Plan.usedCost d = Prepared.baselineCost first).

Definition forcedPlate (it : NormalizedItem) (d : Plan.t) (p : Plate.t) : Prop :=
  Plate.token p = order_token it
  ∧ Plate.decision p = ForcedInclude
  ∧ Plate.wasCompressed p = Plan.usedCompressed d
  ∧ Plate.cost p = Plan.usedCost d
  ∧ Plate.runningTotalBefore p = 0
  ∧ Plate.runningTotalAfter p = Plan.usedCost d.

(** What a call with budget [b] makes of the first requested item [it]:
    [prepared] is the outcome of the first pass and [out] what the call
    returned. *)
Definition firstItemForced (prepared : outcome (list Prepared.t) * ChefState)
    (b : Z) (it : NormalizedItem) (out : CookOutput) (st' : ChefState) : Prop :=
  ∃ first others lines,
    prepared = (Ok (first :: others), st')
    ∧ requested it first
    ∧ fst (selectPlan (Some b) (first :: others)) !! 0%nat = Some (decideFirst first)
    ∧ firstDecisionRule first (decideFirst first)
    ∧ snd (planFirst (first :: others)) = Plan.usedCost (decideFirst first)
    ∧ contextOf out
      = JsString.join newline
          ((Plan.usedRendered (decideFirst first) +:+ newline) :: lines)
    ∧ ∀ r, out = Explained r →
        ∃ p ps, plates r = p :: ps ∧ forcedPlate it (decideFirst first) p.

(** What a call without budget makes of the requested items [its]. *)
Definition servedUnbudgeted (prepared : outcome (list Prepared.t) * ChefState)
    (its : list NormalizedItem) (out : CookOutput) (st' : ChefState) : Prop :=
  ∃ items,
    prepared = (Ok items, st')
    ∧ Forall2 requested its items
    ∧ contextOf out = JsString.join newline (map baselineLine items)
    ∧ ∀ r, out = Explained r →
        totalTokens r = sumZ (map Prepared.baselineCost items)
        ∧ Forall2 servedAtBaseline items (plates r).




(** The token a recipe class is registered under. *)
Definition registeredAs (ctor : RecipeCtor) : string :=
  default (name ctor) (static_token ctor).

(** The first statements of the body of the first loop of [cook], up to
    the baseline cost. *)
Definition baselinePhase (cookbook : Cookbook) (pantry : gmap string ProviderOrValue)
    (stringify : value → completion string) (fuel : nat)
    (options : option CookOptions) (it : NormalizedItem) : M (string * Z) :=
  let* v := prepare cookbook pantry fuel (order_token it) in
  let* materialized :=
    await (materialize (cookbook_get (order_token it) cookbook) (order_detail it) v) in
  let* baselineRendered := await (render stringify materialized) in
  let* baselineCost := await (countTokensFn options baselineRendered) in
  ret (baselineRendered, baselineCost).

(** The last statements of that body, after the [try] block. *)
Definition finishItem (cookbook : Cookbook) (pantry : gmap string ProviderOrValue)
    (fuel : nat) (options : option CookOptions) (it : NormalizedItem)
    (base : string * Z) (fb : Fallback) : M Prepared.t :=
  let ctor := cookbook_get (order_token it) cookbook in
  let* priorityScore :=
    await (rankPriorityFn options
             {| info_token := order_token it;
                info_recipeName := from_option name "pantry" ctor;
                info_priorityTag := ctor ≫= priority;
                info_index := order_index it |}) in
  let* traceEntries :=
    traceIf cookbook pantry fuel (explainOf options) (order_token it) in
  ret {| Prepared.token := order_token it;
         Prepared.detailRequested := order_detail it;
         Prepared.baselineRendered := fst base;
         Prepared.baselineCost := snd base;
         Prepared.compressedRendered := fb_rendered fb;
         Prepared.compressedCost := fb_cost fb;
         Prepared.compressionNote := fb_note fb;
         Prepared.trace := traceEntries;
         Prepared.recipeName := from_option name "pantry" ctor;
         Prepared.priorityTag := ctor ≫= priority;
         Prepared.priorityScore := priorityScore;
         Prepared.index := order_index it |}.

(** An item that is planned and plated without compressed fallback. *)
Definition withoutFallback (p : Prepared.t) : Prop :=
  Prepared.compressedCost p = None
  ∧ Prepared.compressionNote p = None
  ∧ Plan.usedCompressed (decideFirst p) = false
  ∧ (∀ b total, Plan.usedCompressed (decideCandidate b total p) = false)
  ∧ ∀ budget d before after,
      Plate.compressedCost (plateOf budget p d before after) = None.

(** How often the [prepare] method of the recipe class [id] was called. *)
Definition invocations (id : nat) (st : ChefState) : nat :=
  length (filter (λ called, called = id) (invoked st)).

(** The later states of an engine instance: those reached by further
    calls of its methods [prepare] and [cook] ([trace] does not touch the
    caches). *)
Inductive later (cookbook : Cookbook) (pantry : gmap string ProviderOrValue)
    (stringify : value → completion string) : ChefState → ChefState → Prop :=
| later_now st : later cookbook pantry stringify st st
| later_prepare st st1 fuel token r st2 :
    later cookbook pantry stringify st st1 →
    prepare cookbook pantry fuel token st1 = (r, st2) →
    later cookbook pantry stringify st st2
| later_cook st st1 fuel options r st2 :
    later cookbook pantry stringify st st1 →
    cook cookbook pantry stringify fuel options st1 = (r, st2) →
    later cookbook pantry stringify st st2.

(** The cached value [v] of the recipe class [id] stays, and the class is
    not called again. *)
Definition keeps (id : nat) (v : value) (st st' : ChefState) : Prop :=
  valueCache st !! id = Some v →
  valueCache st' !! id = Some v ∧ invocations id st' = invocations id st.

(** [token] is resolved by a recipe that names [token'] as ingredient. *)
Definition dependsOn (cookbook : Cookbook) (pantry : gmap string ProviderOrValue)
    (token token' : string) : Prop :=
  pantry !! token = None
  ∧ ∃ ctor desc,
      cookbook_get token cookbook = Some ctor
      ∧ Some desc ∈ paramDescs ctor
      ∧ rootToken desc = token'.

(** The dependencies reachable from [token] are acyclic: they descend
    along a rank. *)
Definition acyclicFrom (cookbook : Cookbook) (pantry : gmap string ProviderOrValue)
    (rank : string → nat) (token : string) : Prop :=
  ∀ t t',
    rtc (dependsOn cookbook pantry) token t →
    dependsOn cookbook pantry t t' →
    (rank t' < rank t)%nat.

(** [token] is resolved by a recipe class of the set [cyc]. *)
Definition resolvedIn (cookbook : Cookbook) (pantry : gmap string ProviderOrValue)
    (cyc : nat → Prop) (token : string) : Prop :=
  pantry !! token = None
  ∧ ∃ ctor, cookbook_get token cookbook = Some ctor ∧ cyc (ctor_id ctor).

(** Every recipe class of [cyc] has an ingredient that is resolved by a
    class of [cyc] again: the classes lie on dependency cycles, or lead
    into one. *)
Definition cyclic (cookbook : Cookbook) (pantry : gmap string ProviderOrValue)
    (cyc : nat → Prop) : Prop :=
  ∀ token ctor,
    pantry !! token = None → cookbook_get token cookbook = Some ctor →
    cyc (ctor_id ctor) →
    ∃ desc, Some desc ∈ paramDescs ctor
            ∧ resolvedIn cookbook pantry cyc (rootToken desc).

(** The same, with that ingredient declared first (after parameters
    without decorator). *)
Definition cyclicFirst (cookbook : Cookbook) (pantry : gmap string ProviderOrValue)
    (cyc : nat → Prop) : Prop :=
  ∀ token ctor,
    pantry !! token = None → cookbook_get token cookbook = Some ctor →
    cyc (ctor_id ctor) →
    ∃ holes desc rest,
      paramDescs ctor = (holes ++ Some desc :: rest)%list
      ∧ Forall (λ hole, hole = None) holes
      ∧ resolvedIn cookbook pantry cyc (rootToken desc).

Definition uncached (cyc : nat → Prop) (st : ChefState) : Prop :=
  ∀ id, cyc id → valueCache st !! id = None.

(** From fuel [n] on, resolving [token] finishes, with one and the same
    outcome. *)
Definition settles (cookbook : Cookbook) (pantry : gmap string ProviderOrValue)
    (token : string) (n : nat) : Prop :=
  ∀ st, ∃ r st',
    r ≠ OutOfFuel
    ∧ ∀ fuel, (n ≤ fuel)%nat → prepare cookbook pantry fuel token st = (r, st').

(** After [prepare] returned [v] for a token of the recipe class [ctor]
    in state [st1]: in the later state [st2] the value is still cached,
    the class was not called again, and every token registered to that
    class resolves to [v] without a change of state. *)
Definition memoized (cookbook : Cookbook) (pantry : gmap string ProviderOrValue)
    (ctor : RecipeCtor) (v : value) (st1 st2 : ChefState) : Prop :=
  valueCache st2 !! ctor_id ctor = Some v
  ∧ invocations (ctor_id ctor) st2 = invocations (ctor_id ctor) st1
  ∧ ∀ fuel alias ctor',
      pantry !! alias = None →
      cookbook_get alias cookbook = Some ctor' →
      ctor_id ctor' = ctor_id ctor →
      prepare cookbook pantry (S fuel) alias st2 = (Ok v, st2).

(** A resolver that keeps the classes of [cyc] uncached and returns no
    value for a token resolved by one of them. *)
Definition blocked (cookbook : Cookbook) (pantry : gmap string ProviderOrValue)
    (cyc : nat → Prop) (prep : string → M value) : Prop :=
  ∀ token st r st',
    uncached cyc st → prep token st = (r, st') →
    uncached cyc st' ∧ (resolvedIn cookbook pantry cyc token → is_Ok r = false).

(** ** Vocabulary of the further properties *)

(** What a plan entry adds to the running total. *)
Definition contribution (entry : option Plan.t) : Z :=
  match entry with
  | Some d => if Plan.include d then Plan.usedCost d else 0
  | None => 0
  end.

(** The plate [pl] was made for the item [p] from its entry in [plan]. *)
Definition platedAs (budget : option Z) (plan : gmap nat Plan.t)
    (p : Prepared.t) (pl : Plate.t) : Prop :=
  ∃ d before after,
    plan !! Prepared.index p = Some d ∧ pl = plateOf budget p d before after.

(** Which statement of phase 2 took the decision [d] for the item [p]. *)
Definition decidedBy (budget : option Z) (p : Prepared.t) (d : Plan.t) : Prop :=
  match budget with
  | None => d = decideUnbudgeted 0 p
  | Some b =>
      (Prepared.index p = 0%nat ∧ d = decideFirst p)
      ∨ (Prepared.index p ≠ 0%nat ∧ ∃ total, d = decideCandidate b total p)
  end.



(** The plate [pl] answers the requested item [it]. *)
Definition answers (it : NormalizedItem) (pl : Plate.t) : Prop :=
  Plate.token pl = order_token it ∧ Plate.servedDetail pl = order_detail it.

(** The dependencies that the [@ingredient] metadata of a [prepare] method
    declares, as [trace] records them. *)
Fixpoint declaredDeps (descs : list (option IngredientDescriptor))
    : list (string * string) :=
  match descs with
  | [] => []
  | None :: rest => declaredDeps rest
  | Some desc :: rest => (rootToken desc, via_of desc) :: declaredDeps rest
  end.

(** The trace entry [e] says how its token is provided: by the pantry, or
    by the recipe class registered for it, with the ingredients that class
    declares. *)
Definition describes (cookbook : Cookbook) (pantry : gmap string ProviderOrValue)
    (e : TraceEntry) : Prop :=
  match pantry !! trace_token e with
  | Some _ => providerName e = "pantry" ∧ deps e = []
  | None =>
      ∃ ctor,
        cookbook_get (trace_token e) cookbook = Some ctor
        ∧ providerName e = name ctor
        ∧ deps e = declaredDeps (paramDescs ctor)
  end.

(** [entries] is a lineage of [root]: one entry per token, the root among
    them, every entry a true description, and every dependency of an entry
    described by an entry of its own. *)
Definition lineageOf (cookbook : Cookbook) (pantry : gmap string ProviderOrValue)
    (root : string) (entries : list TraceEntry) : Prop :=
  NoDup (map trace_token entries)
  ∧ root ∈ map trace_token entries
  ∧ Forall (describes cookbook pantry) entries
  ∧ ∀ e dep, e ∈ entries → dep ∈ deps e → fst dep ∈ map trace_token entries.

(** The [seen] map of a running [trace] is sound with respect to the
    tokens [known]. *)
Definition entryOk (cookbook : Cookbook) (pantry : gmap string ProviderOrValue)
    (known : list string) (ke : string * TraceEntry) : Prop :=
  trace_token (snd ke) = fst ke
  ∧ describes cookbook pantry (snd ke)
  ∧ ∀ dep, dep ∈ deps (snd ke) → fst dep ∈ known.

Definition seenOk (cookbook : Cookbook) (pantry : gmap string ProviderOrValue)
    (seen : Seen) : Prop :=
  NoDup (map fst seen) ∧ Forall (entryOk cookbook pantry (map fst seen)) seen.

(** A visitor that keeps [seen] sound, forgets nothing and records the
    token it is called for. *)
Definition visits (cookbook : Cookbook) (pantry : gmap string ProviderOrValue)
    (vis : string → Seen → outcome Seen) : Prop :=
  ∀ token seen seen',
    seenOk cookbook pantry seen → vis token seen = Ok seen' →
    seenOk cookbook pantry seen'
    ∧ map fst seen ⊆ map fst seen'
    ∧ token ∈ map fst seen'.

(** No token recorded in [seen] is resolved by a recipe class of [cyc]. *)
Definition unseen (cookbook : Cookbook) (pantry : gmap string ProviderOrValue)
    (cyc : nat → Prop) (seen : Seen) : Prop :=
  ∀ token, token ∈ map fst seen → ¬ resolvedIn cookbook pantry cyc token.

(** A visitor that returns for no token of [cyc] and records none. *)
Definition avoids (cookbook : Cookbook) (pantry : gmap string ProviderOrValue)
    (cyc : nat → Prop) (vis : string → Seen → outcome Seen) : Prop :=
  ∀ token seen seen',
    unseen cookbook pantry cyc seen → vis token seen = Ok seen' →
    unseen cookbook pantry cyc seen' ∧ ¬ resolvedIn cookbook pantry cyc token.

(** The only error of [trace]. *)
Definition notFound (vis : string → Seen → outcome Seen) : Prop :=
  ∀ token seen e, vis token seen = Throw e → ∃ missing, e = TraceTokenNotFound missing.

(** The options of a call with [explain] switched off. *)
Definition quiet (options : option CookOptions) : option CookOptions :=
  (λ o, {| order := order o;
           budget := budget o;
           countTokens := countTokens o;
           rankPriority := rankPriority o;
           explain := false |}) <$> options.

(** A prepared item without its lineage. *)
Definition untraced (p : Prepared.t) : Prepared.t :=
  {| Prepared.token := Prepared.token p;
     Prepared.detailRequested := Prepared.detailRequested p;
     Prepared.baselineRendered := Prepared.baselineRendered p;
     Prepared.baselineCost := Prepared.baselineCost p;
     Prepared.compressedRendered := Prepared.compressedRendered p;
     Prepared.compressedCost := Prepared.compressedCost p;
     Prepared.compressionNote := Prepared.compressionNote p;
     Prepared.trace := None;
     Prepared.recipeName := Prepared.recipeName p;
     Prepared.priorityTag := Prepared.priorityTag p;
     Prepared.priorityScore := Prepared.priorityScore p;
     Prepared.index := Prepared.index p |}.

(** The recipe class [id] is what some token resolves to: the token is
    registered to it and no pantry entry shadows the token. *)
Definition served (cookbook : Cookbook) (pantry : gmap string ProviderOrValue)
    (id : nat) : Prop :=
  ∃ token ctor,
    pantry !! token = None
    ∧ cookbook_get token cookbook = Some ctor
    ∧ ctor_id ctor = id.

(** The caches of an instance agree with each other: a value is cached only
    for a class whose [prepare] was called, [prepare] was called only on a
    cached instance, and an instance exists only of a class that a token
    resolves to. *)
Definition coherent (cookbook : Cookbook) (pantry : gmap string ProviderOrValue)
    (st : ChefState) : Prop :=
  (∀ id, is_Some (valueCache st !! id) → id ∈ invoked st)
  ∧ (∀ id, id ∈ invoked st → id ∈ instanceCache st)
  ∧ (∀ id, id ∈ instanceCache st → served cookbook pantry id).

(** A step that keeps the caches coherent and no instance forgotten. *)
Definition grows (cookbook : Cookbook) (pantry : gmap string ProviderOrValue)
    (st st' : ChefState) : Prop :=
  (coherent cookbook pantry st → coherent cookbook pantry st')
  ∧ instanceCache st ⊆ instanceCache st'.

(** What the write [after[i] = x] of an array makes of [before]: the slot
    holds [x], the slots of [before] are kept, the slots between the end of
    [before] and [i] are holes, and the array ends after the last of them. *)
Definition slotWritten {A : Type} (i : nat) (x : A) (before after : list (option A))
    : Prop :=
  length after = (length before `max` S i)%nat
  ∧ after !! i = Some (Some x)
  ∧ (∀ j, j ≠ i → (j < length before)%nat → after !! j = before !! j)
  ∧ (∀ j, (length before ≤ j < i)%nat → after !! j = Some None).

(** The argument that [invokeRecipe] passes for a parameter: [undefined]
    for a parameter without decorator, and never [undefined] for a declared
    ingredient. *)
Definition supplied (desc : option IngredientDescriptor) (arg : value) : Prop :=
  match desc with
  | None => arg = VUndefined
  | Some _ => is_undefined arg = false
  end.


(** The token is held by the pantry, or it is registered to a recipe class
    whose value is cached in [st]. *)
Definition resolvedAt (cookbook : Cookbook) (pantry : gmap string ProviderOrValue)
    (st : ChefState) (token : string) : Prop :=
  match pantry !! token with
  | Some _ => True
  | None =>
      ∃ ctor v,
        cookbook_get token cookbook = Some ctor
        ∧ valueCache st !! ctor_id ctor = Some v
  end.


(** The lineage of an item is what [trace] returns for its token. *)
Definition traced (cookbook : Cookbook) (pantry : gmap string ProviderOrValue)
    (fuel : nat) (token : string) (entries : option (list TraceEntry)) : Prop :=
  ∃ es, entries = Some es ∧ trace cookbook pantry fuel token = Ok es.

(** The token is held by the pantry or registered in the cookbook. *)
Definition known (cookbook : Cookbook) (pantry : gmap string ProviderOrValue)
    (token : string) : Prop :=
  is_Some (pantry !! token) ∨ is_Some (cookbook_get token cookbook).

(** From fuel [n] on, visiting [token] returns, with one and the same
    [seen] map. *)
Definition visited (cookbook : Cookbook) (pantry : gmap string ProviderOrValue)
    (token : string) (n : nat) : Prop :=
  ∀ seen, ∃ seen',
    ∀ fuel, (n ≤ fuel)%nat → visit cookbook pantry fuel token seen = Ok seen'.

(** ** Kitchens of the repository's examples *)

(** [JSON.stringify] on the values above, for running the examples.  On
    [undefined] the built-in returns [undefined], on which the fallback
    tokenizer throws when it reads [text.length]; that is a throw here. *)
Module Json.

Definition escape_char (c : ascii) : string :=
  if Ascii.eqb c (ascii_of_nat 34) then String (ascii_of_nat 92) (String c EmptyString)
  else if Ascii.eqb c (ascii_of_nat 92) then String c (String c EmptyString)
  else String c EmptyString.

Fixpoint escape (s : string) : string :=
  match s with
  | EmptyString => EmptyString
  | String c rest => escape_char c +:+ escape rest
  end.

Definition quote (s : string) : string :=
  JsString.dquote +:+ escape s +:+ JsString.dquote.

Definition number (n : Z) : string := NilZero.string_of_int (Z.to_int n).

Fixpoint text (v : value) : string :=
  match v with
  | VUndefined | VNull => "null"
  | VBool true => "true"
  | VBool false => "false"
  | VNum n => number n
  | VStr s => quote s
  | VArr items => "[" +:+ JsString.join "," (map text items) +:+ "]"
  | VObj fields =>
      "{" +:+ JsString.join ","
                ((fix members (fs : list (string * value)) : list string :=
                    match fs with
                    | [] => []
                    | (k, member) :: rest =>
                        if is_undefined member then members rest
                        else (quote k +:+ ":" +:+ text member) :: members rest
                    end) fields)
          +:+ "}"
  end.

Definition stringify (v : value) : completion string :=
  match v with
  | VUndefined => Raise (Raised "TypeError: undefined is not an object")
  | _ => Return (text v)
  end.

End Json.

(** The explained result of a run that returned one. *)
Definition explainedOf (run : outcome CookOutput * ChefState) : CookExplainResult :=
  match fst run with
  | Ok (Explained r) => r
  | _ => {| context := EmptyString; totalTokens := 0; result_budget := None; plates := [] |}
  end.

Definition recipe (id : nat) (name : string)
    (specs : list string) (prepare : list value → completion value) : RecipeCtor :=
  {| ctor_id := id;
     name := name;
     static_token := None;
     paramDescs := map (λ spec, Some (parseIngredientSpec spec)) specs;
     recipe_prepare := prepare;
     priority := None;
     compressible := false;
     summaryRecipe := None;
     detailProfiles := [] |}.

Definition with_hints (tag : option PriorityTag) (compress : bool)
    (summary : option string) (ctor : RecipeCtor) : RecipeCtor :=
  {| ctor_id := ctor_id ctor;
     name := name ctor;
     static_token := static_token ctor;
     paramDescs := paramDescs ctor;
     recipe_prepare := recipe_prepare ctor;
     priority := tag;
     compressible := compress;
     summaryRecipe := summary;
     detailProfiles := detailProfiles ctor |}.

(** [examples/hitl]: a system directive and the conversation history of
    a session, with its summary as compressed fallback. *)
Module Hitl.

Definition message (role text : string) : value :=
  VObj [("role", VStr role); ("message", VStr text)].

(** [loadSessionLog]: the parsed log of the session, [null] without log
    file.  Session 1234 has a log of six messages. *)
Definition loadSessionLog (sessionId : string) : value :=
  if String.eqb sessionId "1234" then
    VObj [("messages",
           VArr [message "user" "Hello, can you help me with my project?";
                 message "assistant" "Of course. What is the project about?";
                 message "user" "A context assembly engine.";
                 message "assistant" "What should it assemble?";
                 message "user" "Prompts, under a token budget.";
                 message "assistant" "Then start from the budget planner."])]
  else VNull.

Definition SystemDirective : RecipeCtor :=
  with_hints (Some (TagNumber 20)) false None
    (recipe 1 "SystemDirective" []
       (λ _, Return (VStr "## OBJECTIVE: Assist the user to the best of your ability."))).

Definition ConversationHistory : RecipeCtor :=
  with_hints (Some (TagNumber 20)) true (Some "ConversationHistorySummary")
    (recipe 2 "ConversationHistory" ["sessionId"]
       (λ args,
          match args with
          | VStr sessionId :: _ => Return (loadSessionLog sessionId)
          | _ => Return VNull
          end)).

(** [conversationHistoryCopy.messages.slice(-5)]; reading [slice] of a
    missing [messages] is a [TypeError]. *)
Definition lastFive (fields : list (string * value)) : completion value :=
  match JsonPath.get_field "messages" fields with
  | VArr messages =>
      Return (VObj [("messages", VArr (drop (length messages - 5) messages))])
  | _ => Raise (Raised "TypeError: undefined is not an object")
  end.

Definition ConversationHistorySummary : RecipeCtor :=
  with_hints (Some (TagNumber 20)) false (Some "ConversationHistorySummary")
    (recipe 3 "ConversationHistorySummary" ["ConversationHistory"]
       (λ args,
          match args with
          | VObj fields :: _ => lastFive fields
          | _ => lastFive []
          end)).

Definition cookbook : Cookbook :=
  register ConversationHistorySummary
    (register ConversationHistory (register SystemDirective [])).

Definition pantry (sessionId : string) : gmap string ProviderOrValue :=
  {[ "sessionId" := PantryValue (VStr sessionId) ]}.

(** The call of [examples/hitl/index.ts], with the fallback tokenizer. *)
Definition options (tokens : Z) : option CookOptions :=
  Some {| order := Some [OrderToken "SystemDirective"; OrderToken "ConversationHistory"];
          budget := Some tokens;
          countTokens := None;
          rankPriority := None;
          explain := true |}.

Definition run (tokens : Z) : outcome CookOutput * ChefState :=
  cook cookbook (pantry "1234") Json.stringify 5 (options tokens) fresh.

(** The same order without budget. *)
Definition unbudgeted : option CookOptions :=
  Some {| order := Some [OrderToken "SystemDirective"; OrderToken "ConversationHistory"];
          budget := None;
          countTokens := None;
          rankPriority := None;
          explain := true |}.

Definition run_unbudgeted : outcome CookOutput * ChefState :=
  cook cookbook (pantry "1234") Json.stringify 5 unbudgeted fresh.

(** The state of a fresh instance after resolving the directive. *)
Definition directive_cached : ChefState :=
  snd (prepare cookbook (pantry "1234") 2 "SystemDirective" fresh).

(** The second item of the order, for a session without log: the states
    of a fresh instance after its baseline and after its summary attempt. *)
Definition historyItem : NormalizedItem :=
  {| order_token := "ConversationHistory"; order_detail := "full"; order_index := 1 |}.

Definition history_loaded : ChefState :=
  snd (baselinePhase cookbook (pantry "none") Json.stringify 5 (options 100)
         historyItem fresh).

Definition summary_failed : ChefState :=
  snd (summaryTry cookbook (pantry "none") Json.stringify 5 (options 100)
         "ConversationHistorySummary" history_loaded).


End Hitl.

(** A kitchen after [examples/script-generator]: [Characters] is
    compressible here, and its summary is the empty text when the list of
    characters is empty. *)
Module Script.

Definition Title : RecipeCtor :=
  recipe 1 "Title" [] (λ _, Return (VStr "Act I")).

Definition Characters : RecipeCtor :=
  with_hints None true (Some "CharactersSummary")
    (recipe 2 "Characters" ["storySeed"]
       (λ _, Return (VObj [("characters", VArr [])]))).

(** [`${char.name}`] and the like: a missing field prints as undefined. *)
Definition interpolate (field : string) (char : value) : string :=
  match char with
  | VObj fields =>
      match JsonPath.get_field field fields with
      | VStr text => text
      | _ => "undefined"
      end
  | _ => "undefined"
  end.

Definition describe (char : value) : string :=
  "Name: " +:+ interpolate "name" char +:+ newline
  +:+ "Role: " +:+ interpolate "role" char +:+ newline
  +:+ "Description: " +:+ interpolate "description" char.

(** [characters.characters.map(describe).join("\n\n")] *)
Definition CharactersSummary : RecipeCtor :=
  recipe 3 "CharactersSummary" ["Characters"]
    (λ args,
       match args with
       | VObj fields :: _ =>
           match JsonPath.get_field "characters" fields with
           | VArr chars =>
               Return (VStr (JsString.join (newline +:+ newline) (map describe chars)))
           | _ => Raise (Raised "TypeError: characters.characters.map is not a function")
           end
       | _ => Raise (Raised "TypeError: characters.characters.map is not a function")
       end).

Definition cookbook : Cookbook :=
  register CharactersSummary (register Characters (register Title [])).

Definition pantry : gmap string ProviderOrValue :=
  {[ "storySeed" := PantryProvider (Return (VStr "In the far future")) ]}.

Definition options (tokens : Z) : option CookOptions :=
  Some {| order := Some [OrderToken "Title"; OrderToken "Characters"];
          budget := Some tokens;
          countTokens := None;
          rankPriority := None;
          explain := true |}.

End Script.

(** The sub-path example of the specification. *)
Module SubPath.

Definition root : value :=
  VObj [("a", VObj [("b", VArr [VNum 10; VNum 20])])].

Definition pantry : gmap string ProviderOrValue :=
  {[ "root" := PantryValue root ]}.

Definition second : IngredientDescriptor := parseIngredientSpec "root.a.b[1]".
Definition absent : IngredientDescriptor := parseIngredientSpec "root.a.c".

Definition first_arg (args : list value) : completion value :=
  Return (default VNull (head args)).

Definition cookbook : Cookbook :=
  register (recipe 2 "Absent" ["root.a.c"] first_arg)
    (register (recipe 1 "Second" ["root.a.b[1]"] first_arg) []).

End SubPath.

(** Two recipes that name each other as ingredient. *)
Module Cycle.

Definition Ping : RecipeCtor := recipe 1 "Ping" ["Pong"] (λ _, Return (VStr "ping")).
Definition Pong : RecipeCtor := recipe 2 "Pong" ["Ping"] (λ _, Return (VStr "pong")).

(** A recipe outside the cycle, on a pantry value. *)
Definition Echo : RecipeCtor := recipe 3 "Echo" ["seed"] SubPath.first_arg.

Definition cookbook : Cookbook := register Echo (register Pong (register Ping [])).

Definition pantry : gmap string ProviderOrValue :=
  {[ "seed" := PantryValue (VStr "seed") ]}.

Definition rank (token : string) : nat :=
  if String.eqb token "Echo" then 1 else 0.

Definition onCycle (id : nat) : Prop := id = 1%nat ∨ id = 2%nat.

(** A recipe that names itself, after an ingredient nobody provides. *)
Definition Stuck : RecipeCtor :=
  recipe 4 "Stuck" ["missing"; "Stuck"] SubPath.first_arg.

Definition stuck_cookbook : Cookbook := register Stuck [].

End Cycle.

(** ** Runs of the example kitchens for the further properties *)

Definition Script_run : outcome CookOutput * ChefState :=
  cook Script.cookbook Script.pantry Json.stringify 5 (Script.options 3) fresh.

(** The lineage of the summary of the HITL kitchen. *)
Definition Hitl_summary_lineage : list TraceEntry :=
  [ {| trace_token := "sessionId"; providerName := "pantry"; deps := [] |};
    {| trace_token := "ConversationHistory";
       providerName := "ConversationHistory";
       deps := declaredDeps (paramDescs Hitl.ConversationHistory) |};
    {| trace_token := "ConversationHistorySummary";
       providerName := "ConversationHistorySummary";
       deps := declaredDeps (paramDescs Hitl.ConversationHistorySummary) |} ].


(** Three prepared items without compressed form. *)
Definition plain (index : nat) (token text : string) (cost score : Z) : Prepared.t :=
  {| Prepared.token := token;
     Prepared.detailRequested := "full";
     Prepared.baselineRendered := text;
     Prepared.baselineCost := cost;
     Prepared.compressedRendered := None;
     Prepared.compressedCost := None;
     Prepared.compressionNote := None;
     Prepared.trace := None;
     Prepared.recipeName := token;
     Prepared.priorityTag := None;
     Prepared.priorityScore := score;
     Prepared.index := index |}.

Definition Menu : list Prepared.t :=
  [ plain 0 "Directive" "Answer briefly." 4 50;
    plain 1 "History" "user: hello there, how are you" 8 25;
    plain 2 "Rules" "No secrets." 3 100 ].



(** * Verification *)

(** ** The plating loop *)

Lemma kept_plateOf budget item d before after :
  kept (plateOf budget item d before after) = Plan.include d.
Proof.
  unfold kept, plateOf, decisionOf; simpl.
  destruct (Plan.include d); simpl; [|done].
  destruct budget; [case_bool_decide|]; done.
Qed.

Lemma chain_app start ps qs :
  chain start ps → chain (closing start ps) qs → chain start (ps ++ qs).
Proof.
  revert start. induction ps as [|p ps IH]; intros start; simpl; [done|].
  intros (Hb & Ha & Hc) Hq. repeat split; auto.
Qed.

Lemma closing_app start ps qs :
  closing start (ps ++ qs) = closing (closing start ps) qs.
Proof. revert start. induction ps; intros; simpl; auto. Qed.

Lemma keptCost_app ps qs : keptCost (ps ++ qs) = keptCost ps + keptCost qs.
Proof.
  unfold keptCost. induction ps as [|p ps IH]; simpl; [done|].
  rewrite IH. destruct (kept p); lia.
Qed.

Lemma chain_closing start ps :
  chain start ps → closing start ps = start + keptCost ps.
Proof.
  revert start. induction ps as [|p ps IH]; intros start; simpl.
  - intros _. unfold keptCost. simpl. lia.
  - intros (_ & Ha & Hc). rewrite (IH _ Hc), Ha.
    unfold keptCost; simpl. destruct (kept p); lia.
Qed.

Lemma chain_lookup start ps i p :
  chain start ps → ps !! i = Some p →
  Plate.runningTotalBefore p = closing start (take i ps)
  ∧ Plate.runningTotalAfter p =
      (if kept p then Plate.runningTotalBefore p + Plate.cost p
       else Plate.runningTotalBefore p).
Proof.
  revert start i. induction ps as [|q ps IH]; intros start i; [done|].
  simpl. intros (Hb & Ha & Hc). destruct i as [|i]; simpl.
  - intros [= ->]. rewrite Hb. auto.
  - intros Hi. apply (IH _ _ Hc Hi).
Qed.

Lemma closing_take_S start ps i p :
  ps !! i = Some p → closing start (take (S i) ps) = Plate.runningTotalAfter p.
Proof.
  revert start i. induction ps as [|q ps IH]; intros start i; [done|].
  destruct i as [|i]; simpl.
  - intros [= ->]. by destruct ps.
  - intros Hi. apply (IH _ _ Hi).
Qed.

Lemma closing_last start ps p :
  last ps = Some p → closing start ps = Plate.runningTotalAfter p.
Proof.
  revert start. induction ps as [|q ps IH]; intros start Hl; [done|].
  destruct ps as [|q' ps].
  - simpl in Hl. by injection Hl as ->.
  - change (closing (Plate.runningTotalAfter q) (q' :: ps) = Plate.runningTotalAfter p).
    apply IH. exact Hl.
Qed.

Section PlatingLoop.

Variable budget : option Z.
Variable plan : gmap nat Plan.t.

(** One iteration, when the provenance is asked for. *)
Lemma plateItem_explained acc item :
  ∃ ps,
    platesSoFar (plateItem budget true plan acc item) = (platesSoFar acc ++ ps)%list
    ∧ chain (runningTotal acc) ps
    ∧ runningTotal (plateItem budget true plan acc item)
      = closing (runningTotal acc) ps.
Proof.
  unfold plateItem. destruct (plan !! Prepared.index item) as [d|].
  - eexists [_]. simpl. split; [reflexivity|].
    rewrite kept_plateOf. destruct (Plan.include d); simpl; auto.
  - exists []. simpl. rewrite app_nil_r. auto.
Qed.

Lemma plating_explained items acc :
  ∃ ps,
    platesSoFar (foldl (plateItem budget true plan) acc items)
      = (platesSoFar acc ++ ps)%list
    ∧ chain (runningTotal acc) ps
    ∧ runningTotal (foldl (plateItem budget true plan) acc items)
      = closing (runningTotal acc) ps.
Proof.
  revert acc. induction items as [|item items IH]; intros acc; simpl.
  - exists []. rewrite app_nil_r. simpl. auto.
  - destruct (plateItem_explained acc item) as (ps & Hps & Hc & Ht).
    destruct (IH (plateItem budget true plan acc item)) as (qs & Hqs & Hc' & Ht').
    exists (ps ++ qs)%list. rewrite Hqs, Hps, Ht', Ht, closing_app, <- app_assoc.
    repeat split. apply chain_app; [done|]. by rewrite <- Ht.
Qed.

(** Without provenance no plate is pushed. *)
Lemma plating_silent items acc :
  platesSoFar (foldl (plateItem budget false plan) acc items) = platesSoFar acc.
Proof.
  revert acc. induction items as [|item items IH]; intros acc; simpl; [done|].
  rewrite IH. unfold plateItem. by destruct (plan !! Prepared.index item).
Qed.

End PlatingLoop.

(** ** The selection loops *)

Lemma indexed_NoDup items : indexed items → NoDup (map Prepared.index items).
Proof.
  intros Hix. apply NoDup_alt. intros i j k Hi Hj.
  rewrite list_lookup_fmap in Hi, Hj.
  destruct (items !! i) as [p|] eqn:Ep; [|done].
  destruct (items !! j) as [q|] eqn:Eq; [|done].
  simpl in Hi, Hj. injection Hi as <-. injection Hj as Hq.
  rewrite (Hix _ _ Ep) in Hq. rewrite (Hix _ _ Eq) in Hq. done.
Qed.

Lemma indexed_tail first others :
  indexed (first :: others) →
  Prepared.index first = 0%nat
  ∧ NoDup (map Prepared.index others)
  ∧ ∀ p, p ∈ others → Prepared.index p ≠ 0%nat.
Proof.
  intros Hix. split; [apply (Hix 0%nat); done|]. split.
  - apply indexed_NoDup in Hix. simpl in Hix. by apply NoDup_cons in Hix as [_ ?].
  - intros p Hp. apply list_elem_of_lookup in Hp as [i Hi].
    rewrite (Hix (S i) p); [lia|done].
Qed.

Section SelectionLoop.

Variable decide_at : Z → Prepared.t → Plan.t.
Variable advance : Z → Prepared.t → Z.

Local Abbreviation step := (planStep decide_at advance).

Lemma planStep_total items sel :
  snd (foldl step sel items) = foldl advance (snd sel) items.
Proof. revert sel. induction items as [|x items IH]; intros sel; simpl; [done|]. by rewrite IH. Qed.

Lemma planStep_other items sel k :
  k ∉ map Prepared.index items →
  fst (foldl step sel items) !! k = fst sel !! k.
Proof.
  revert sel. induction items as [|x items IH]; intros sel Hk; simpl; [done|].
  simpl in Hk. apply not_elem_of_cons in Hk as [Hne Hk].
  rewrite (IH _ Hk). simpl. by rewrite lookup_insert_ne.
Qed.

Lemma planStep_lookup pre x post sel :
  NoDup (map Prepared.index (pre ++ x :: post)) →
  fst (foldl step sel (pre ++ x :: post)) !! Prepared.index x
  = Some (decide_at (foldl advance (snd sel) pre) x).
Proof.
  rewrite foldl_app. simpl. rewrite map_app. simpl.
  intros Hnd. apply NoDup_app in Hnd as (_ & _ & Hnd).
  apply NoDup_cons in Hnd as [Hx _].
  rewrite planStep_other by done. simpl.
  by rewrite lookup_insert_eq, planStep_total.
Qed.

End SelectionLoop.

Lemma planUnbudgeted_step :
  planUnbudgeted = planStep decideUnbudgeted advanceUnbudgeted.
Proof. reflexivity. Qed.

Lemma planCandidate_step budget :
  planCandidate budget = planStep (decideCandidate budget) (advanceCandidate budget).
Proof. reflexivity. Qed.

Lemma unbudgeted_lookup items p :
  NoDup (map Prepared.index items) → p ∈ items →
  fst (selectPlan None items) !! Prepared.index p = Some (decideUnbudgeted 0 p).
Proof.
  intros Hnd Hp. apply list_elem_of_split in Hp as (pre & post & ->).
  unfold selectPlan. rewrite planUnbudgeted_step.
  rewrite planStep_lookup by done. reflexivity.
Qed.

(** ** The order of the candidates *)

Section SortFacts.

Context {A : Type} (compare : A → A → Z).

Local Abbreviation precedes := (precedes compare).

Hypothesis precedes_total : ∀ x y, precedes x y ∨ precedes y x.
Hypothesis precedes_trans : ∀ x y z, precedes x y → precedes y z → precedes x z.

Lemma insert_perm x l : Permutation (JsArray.insert compare x l) (x :: l).
Proof.
  induction l as [|y l IH]; simpl; [done|].
  destruct (compare x y <=? 0); [done|].
  rewrite IH. apply perm_swap.
Qed.

Lemma sort_perm l : Permutation (JsArray.sort compare l) l.
Proof.
  induction l as [|x l IH]; simpl; [done|].
  rewrite insert_perm. by constructor.
Qed.

Lemma insert_sorted x l :
  StronglySorted precedes l → StronglySorted precedes (JsArray.insert compare x l).
Proof.
  induction 1 as [|y l Hs IH Hy]; simpl.
  - repeat constructor.
  - destruct (Z.leb_spec (compare x y) 0) as [Hle|Hgt].
    + constructor; [by constructor|].
      constructor; [done|].
      eapply Forall_impl; [exact Hy|]. intros z Hz. by eapply precedes_trans.
    + constructor; [done|].
      assert (Hyx : precedes y x).
      { destruct (precedes_total x y) as [H|H]; [unfold precedes in H; lia|done]. }
      eapply Permutation_Forall; [symmetry; apply insert_perm|].
      by constructor.
Qed.

Lemma sort_sorted l : StronglySorted precedes (JsArray.sort compare l).
Proof.
  induction l as [|x l IH]; simpl; [constructor|]. by apply insert_sorted.
Qed.


End SortFacts.

Lemma compareCandidates_le a b :
  compareCandidates a b <= 0 ↔ plannedBefore a b.
Proof.
  unfold compareCandidates, plannedBefore.
  destruct (Z.eqb_spec (Prepared.priorityScore b) (Prepared.priorityScore a));
    simpl; [|lia].
  destruct (Z.eqb_spec (minCost a) (minCost b)); simpl; lia.
Qed.

Lemma plannedBefore_total a b : plannedBefore a b ∨ plannedBefore b a.
Proof. unfold plannedBefore. lia. Qed.

Lemma plannedBefore_trans a b c :
  plannedBefore a b → plannedBefore b c → plannedBefore a c.
Proof. unfold plannedBefore. lia. Qed.

Lemma candidates_sorted items :
  StronglySorted (precedes compareCandidates) (candidates items).
Proof.
  apply sort_sorted.
  - intros x y. unfold precedes. rewrite !compareCandidates_le.
    apply plannedBefore_total.
  - intros x y z. unfold precedes. rewrite !compareCandidates_le.
    apply plannedBefore_trans.
Qed.

Lemma candidates_perm items : Permutation (candidates items) (drop 1 items).
Proof. apply sort_perm. Qed.

Lemma candidates_NoDup first others :
  indexed (first :: others) → NoDup (map Prepared.index (candidates (first :: others))).
Proof.
  intros Hix. destruct (indexed_tail _ _ Hix) as (_ & Hnd & _).
  assert (Hp : Permutation (map Prepared.index (candidates (first :: others)))
                           (map Prepared.index others)).
  { apply Permutation_map. apply candidates_perm. }
  by rewrite Hp.
Qed.

Lemma candidates_not_first first others :
  indexed (first :: others) →
  0%nat ∉ map Prepared.index (candidates (first :: others)).
Proof.
  intros Hix Hin. destruct (indexed_tail _ _ Hix) as (_ & _ & Hne).
  apply list_elem_of_fmap in Hin as (p & Hp0 & Hp).
  apply (Hne p); [|done].
  eapply elem_of_Permutation_proper in Hp; [exact Hp|].
  symmetry. apply candidates_perm.
Qed.

(** ** The plan under a budget *)

Lemma budget_first_lookup b first others :
  indexed (first :: others) →
  fst (selectPlan (Some b) (first :: others)) !! 0%nat = Some (decideFirst first).
Proof.
  intros Hix. unfold selectPlan. rewrite planCandidate_step.
  rewrite planStep_other by by apply candidates_not_first.
  simpl. destruct (indexed_tail _ _ Hix) as (-> & _). apply lookup_insert_eq.
Qed.

Lemma budget_candidate_lookup b first others pre cand post :
  indexed (first :: others) →
  candidates (first :: others) = (pre ++ cand :: post)%list →
  fst (selectPlan (Some b) (first :: others)) !! Prepared.index cand
  = Some (decideCandidate b
            (foldl (advanceCandidate b) (0 + Plan.usedCost (decideFirst first)) pre)
            cand).
Proof.
  intros Hix Hc. unfold selectPlan. rewrite planCandidate_step, Hc.
  rewrite planStep_lookup; [done|].
  rewrite <- Hc. by apply candidates_NoDup.
Qed.

(** ** From a [cook] call to its prepared items *)

Ltac invert_bind H :=
  unfold bind, ret, throw, await in H;
  repeat match type of H with
         | context [match ?c with _ => _ end] =>
             let E := fresh "E" in destruct c eqn:E; try discriminate H
         end.

Section CookFacts.

Variable cookbook : Cookbook.
Variable pantry : gmap string ProviderOrValue.
Variable JSON_stringify : value → completion string.

Local Abbreviation prepItem := (prepareItem cookbook pantry JSON_stringify).
Local Abbreviation prepItems := (prepareItems cookbook pantry JSON_stringify).
Local Abbreviation cookIt := (cook cookbook pantry JSON_stringify).

Lemma prepareItem_requested fuel options it st p st' :
  prepItem fuel options it st = (Ok p, st') → requested it p.
Proof.
  unfold prepareItem. intros H. invert_bind H.
  injection H as <- _. by repeat split.
Qed.

Lemma prepareItems_requested fuel options its st ps st' :
  prepItems fuel options its st = (Ok ps, st') → Forall2 requested its ps.
Proof.
  revert st ps st'. induction its as [|it its IH]; intros st ps st' H; simpl in H.
  - injection H as <- _. constructor.
  - invert_bind H. injection H as <- _. constructor.
    + eapply prepareItem_requested; eassumption.
    + eapply IH; eassumption.
Qed.

Lemma orderListNormalized_index options i it :
  orderListNormalized cookbook options !! i = Some it → order_index it = i.
Proof.
  unfold orderListNormalized, wholeCookbook.
  destruct (options ≫= order) as [[|first rest]|];
    rewrite list_lookup_imap; intros H;
    match type of H with
    | context [?l !! i] => destruct (l !! i) as [x|]; [|done]
    end; simpl in H; injection H as <-; try done.
  by destruct x.
Qed.

Lemma requested_indexed its ps :
  (∀ i it, its !! i = Some it → order_index it = i) →
  Forall2 requested its ps → indexed ps.
Proof.
  intros Hix HF i p Hp.
  destruct (Forall2_lookup_r _ _ _ _ _ HF Hp) as (it & Hit & (_ & _ & Hi)).
  rewrite Hi. by apply Hix.
Qed.

(** A call that returns has prepared one item per requested item, in
    order, and served them. *)
Lemma cook_returns fuel options st out st' :
  cookIt fuel options st = (Ok out, st') →
  ∃ items,
    prepItems fuel options (orderListNormalized cookbook options) st = (Ok items, st')
    ∧ Forall2 requested (orderListNormalized cookbook options) items
    ∧ indexed items
    ∧ out = serve (budgetOf options) (explainOf options) items.
Proof.
  unfold cook. intros H. invert_bind H. injection H as H1 H2. subst.
  eexists. split; [reflexivity|].
  assert (HF := prepareItems_requested _ _ _ _ _ _ E).
  split; [done|]. split; [|done].
  eapply requested_indexed; [|exact HF].
  apply orderListNormalized_index.
Qed.

End CookFacts.


(** ** What the plating loop emits *)

Lemma plating_extends budget explain plan items acc :
  ∃ ls ps,
    includedLines (foldl (plateItem budget explain plan) acc items)
      = (includedLines acc ++ ls)%list
    ∧ platesSoFar (foldl (plateItem budget explain plan) acc items)
      = (platesSoFar acc ++ ps)%list.
Proof.
  revert acc. induction items as [|item items IH]; intros acc; simpl.
  - exists [], []. by rewrite !app_nil_r.
  - destruct (IH (plateItem budget explain plan acc item)) as (ls & ps & -> & ->).
    unfold plateItem. destruct (plan !! Prepared.index item) as [d|]; simpl.
    + destruct (Plan.include d), explain; rewrite <- ?app_assoc; eauto.
    + eauto.
Qed.

Lemma plating_unbudgeted explain plan items acc :
  (∀ p, p ∈ items → plan !! Prepared.index p = Some (decideUnbudgeted 0 p)) →
  includedLines (foldl (plateItem None explain plan) acc items)
    = (includedLines acc ++ map baselineLine items)%list
  ∧ runningTotal (foldl (plateItem None explain plan) acc items)
    = runningTotal acc + sumZ (map Prepared.baselineCost items)
  ∧ ∃ ps,
      platesSoFar (foldl (plateItem None explain plan) acc items)
        = (platesSoFar acc ++ ps)%list
      ∧ (explain = true → Forall2 servedAtBaseline items ps).
Proof.
  revert acc. induction items as [|item items IH]; intros acc Hplan; simpl.
  - rewrite !app_nil_r. unfold sumZ; simpl. repeat split; [lia|].
    exists []. rewrite app_nil_r. by split; [|constructor].
  - destruct (IH (plateItem None explain plan acc item)) as (Hl & Ht & ps & Hp & HF).
    { intros p Hp. apply Hplan. by right. }
    rewrite Hl, Ht, Hp. unfold plateItem.
    rewrite (Hplan item) by left. simpl.
    rewrite <- app_assoc. repeat split; [unfold sumZ; simpl; lia|].
    destruct explain; simpl.
    + eexists (_ :: ps). rewrite <- app_assoc. split; [reflexivity|].
      intros _. constructor; [by repeat split|by apply HF].
    + exists ps. split; [done|]. discriminate.
Qed.

Lemma keptCost_filter ps :
  keptCost ps
  = sumZ (map Plate.cost (filter (λ p, Plate.decision p ≠ Dropped) ps)).
Proof.
  induction ps as [|p ps IH]; [done|].
  rewrite filter_cons.
  change (keptCost (p :: ps))
    with (if kept p then Plate.cost p + keptCost ps else keptCost ps).
  rewrite IH. unfold kept.
  destruct (decide (Plate.decision p ≠ Dropped)) as [Hd|Hd];
    destruct (Plate.decision p); try done; by destruct Hd.
Qed.

Lemma serve_plates budget items :
  ∃ ps,
    serve budget true items
    = Explained {| context := JsString.join newline
                                (includedLines (plating budget true
                                   (fst (selectPlan budget items)) items));
                   totalTokens := closing 0 ps;
                   result_budget := budget;
                   plates := ps |}
    ∧ chain 0 ps.
Proof.
  unfold serve, plating.
  destruct (plating_explained budget (fst (selectPlan budget items)) items initialPlating)
    as (ps & Hps & Hc & Ht).
  exists ps. fold initialPlating. rewrite Hps, Ht. simpl. done.
Qed.

(** ** The accounting chain of the plates *)

(** C9.  In an explained result the plates account for the running total in
    the order of the request: the first plate starts at 0, each next plate
    starts where the one before it ended, a plate that was forced or
    included ends its cost higher and a dropped plate ends where it
    started; [totalTokens] is the sum of the costs of the plates that were
    not dropped, and it is where the last plate ended. *)
Theorem plates_account_for_total cookbook pantry stringify fuel options st r st' :
  cook cookbook pantry stringify fuel options st = (Ok (Explained r), st') →
  accountingChain r.
Proof.
  intros Hcook. apply cook_returns in Hcook as (items & _ & _ & _ & Hout).
  assert (Hexp : explainOf options = true).
  { destruct (explainOf options); [done|]. by unfold serve in Hout. }
  rewrite Hexp in Hout.
  destruct (serve_plates (budgetOf options) items) as (ps & Hserve & Hchain).
  rewrite Hserve in Hout. injection Hout as ->. unfold accountingChain. simpl.
  repeat split.
  - intros p Hp. by destruct (chain_lookup _ _ _ _ Hchain Hp) as [-> _].
  - intros i p q Hp Hq. destruct (chain_lookup _ _ _ _ Hchain Hq) as [-> _].
    by apply closing_take_S.
  - intros p Hp Hd. apply list_elem_of_lookup in Hp as [i Hi].
    destruct (chain_lookup _ _ _ _ Hchain Hi) as [_ ->].
    unfold kept. by destruct Hd as [-> | ->].
  - intros p Hp Hd. apply list_elem_of_lookup in Hp as [i Hi].
    destruct (chain_lookup _ _ _ _ Hchain Hi) as [_ ->].
    unfold kept. by rewrite Hd.
  - rewrite (chain_closing _ _ Hchain), keptCost_filter. lia.
  - intros p Hp. by apply closing_last.
Qed.

Lemma plates_account_for_total_witness :
  cook Hitl.cookbook (Hitl.pantry "1234") Json.stringify 5 (Hitl.options 100) fresh
    = (Ok (Explained (explainedOf (Hitl.run 100))), snd (Hitl.run 100))
  ∧ accountingChain (explainedOf (Hitl.run 100)).
Proof.
  split; [vm_compute; reflexivity|].
  apply (plates_account_for_total Hitl.cookbook (Hitl.pantry "1234") Json.stringify
           5 (Hitl.options 100) fresh _ (snd (Hitl.run 100))).
  vm_compute; reflexivity.
Defined.

(** ** The first item under a budget *)

Lemma decideFirst_rule first : firstDecisionRule first (decideFirst first).
Proof.
  unfold firstDecisionRule, decideFirst.
  destruct (Prepared.compressedRendered first) as [rendered|];
    [destruct (Prepared.compressedCost first) as [cost|]|]; simpl;
    try (repeat split; by try discriminate).
  destruct (JsString.truthy rendered); simpl;
    [destruct (Z.ltb_spec cost (Prepared.baselineCost first))|]; simpl;
    repeat split; try discriminate; try done.
  intros _. exists rendered, cost. by repeat split.
Qed.

Lemma contextOf_serve budget explain items :
  contextOf (serve budget explain items)
  = JsString.join newline
      (includedLines (plating budget explain (fst (selectPlan budget items)) items)).
Proof. unfold serve. by destruct explain. Qed.

(** C1.  In a call with a budget that returns, the first requested item is
    in the plan as included and forced whatever the budget is; its
    compressed form is used only when it exists and costs less than the
    baseline; the cost chosen is the running total after it; its text opens
    the context, and its plate, when plates are asked for, is the first
    one, with decision forced-include. *)
Theorem first_item_forced cookbook pantry stringify fuel options b st out st' it its :
  cook cookbook pantry stringify fuel options st = (Ok out, st') →
  budgetOf options = Some b →
  orderListNormalized cookbook options = it :: its →
  firstItemForced (prepareItems cookbook pantry stringify fuel options (it :: its) st)
    b it out st'.
Proof.
  intros Hcook Hb Hord.
  apply cook_returns in Hcook as (items & Hprep & Hreq & Hix & Hout).
  rewrite Hord in Hprep, Hreq. rewrite Hb in Hout.
  destruct items as [|first others]; [by apply Forall2_length in Hreq|].
  assert (Hfirst : requested it first) by by apply Forall2_cons_1 in Hreq as [? _].
  assert (Hlook := budget_first_lookup b _ _ Hix).
  assert (H0 : Prepared.index first = 0%nat) by by apply (indexed_tail _ _ Hix).
  assert (Hrule := decideFirst_rule first).
  set (d := decideFirst first) in *.
  set (plan := fst (selectPlan (Some b) (first :: others))) in *.
  assert (Hstep : plateItem (Some b) (explainOf options) plan initialPlating first
                  = {| includedLines := [Plan.usedRendered d +:+ newline];
                       runningTotal := 0 + Plan.usedCost d;
                       platesSoFar :=
                         if explainOf options
                         then [plateOf (Some b) first d 0 (0 + Plan.usedCost d)]
                         else [] |}).
  { unfold plateItem. rewrite H0, Hlook.
    destruct Hrule as (-> & _). reflexivity. }
  destruct (plating_extends (Some b) (explainOf options) plan others
              (plateItem (Some b) (explainOf options) plan initialPlating first))
    as (ls & ps & Hls & Hps).
  rewrite Hstep in Hls, Hps. simpl in Hls, Hps.
  exists first, others, ls.
  split; [exact Hprep|]. split; [exact Hfirst|]. split; [exact Hlook|].
  split; [exact Hrule|]. split; [simpl; fold d; lia|]. split.
  - rewrite Hout, contextOf_serve. unfold plating. fold initialPlating. fold plan.
    cbn [foldl]. by rewrite Hstep, Hls.
  - intros r Hr. rewrite Hout in Hr. unfold serve in Hr.
    destruct (explainOf options); [|done].
    assert (Hr' : plates r = platesSoFar (plating (Some b) true plan (first :: others)))
      by by injection Hr as <-.
    rewrite Hr'. unfold plating. fold initialPlating.
    cbn [foldl]. rewrite Hstep, Hps. eexists _, ps. split; [reflexivity|].
    unfold forcedPlate, plateOf, decisionOf; simpl.
    destruct Hrule as (-> & _). simpl. rewrite H0. simpl.
    destruct Hfirst as (-> & _). repeat split; lia.
Qed.

Lemma first_item_forced_witness :
  cook Hitl.cookbook (Hitl.pantry "1234") Json.stringify 5 (Hitl.options 10) fresh
    = (Ok (Explained (explainedOf (Hitl.run 10))), snd (Hitl.run 10))
  ∧ budgetOf (Hitl.options 10) = Some 10
  ∧ orderListNormalized Hitl.cookbook (Hitl.options 10)
    = [ {| order_token := "SystemDirective"; order_detail := "full"; order_index := 0 |};
        {| order_token := "ConversationHistory"; order_detail := "full"; order_index := 1 |} ]
  ∧ firstItemForced
      (prepareItems Hitl.cookbook (Hitl.pantry "1234") Json.stringify 5 (Hitl.options 10)
         [ {| order_token := "SystemDirective"; order_detail := "full"; order_index := 0 |};
           {| order_token := "ConversationHistory"; order_detail := "full";
              order_index := 1 |} ]
         fresh)
      10
      {| order_token := "SystemDirective"; order_detail := "full"; order_index := 0 |}
      (Explained (explainedOf (Hitl.run 10))) (snd (Hitl.run 10)).
Proof.
  split; [vm_compute; reflexivity|]. split; [reflexivity|]. split; [reflexivity|].
  apply (first_item_forced Hitl.cookbook (Hitl.pantry "1234") Json.stringify 5
           (Hitl.options 10) 10 fresh).
  - vm_compute; reflexivity.
  - reflexivity.
  - reflexivity.
Defined.

(** ** A call without budget *)

(** C2.  A call without budget that returns has served every requested
    item: the context is made of the baseline text of each item, in order;
    every plate is an inclusion at the baseline cost, not compressed; and
    [totalTokens] is the sum of the baseline costs. *)
Theorem unbudgeted_serves_all cookbook pantry stringify fuel options st out st' :
  cook cookbook pantry stringify fuel options st = (Ok out, st') →
  budgetOf options = None →
  servedUnbudgeted
    (prepareItems cookbook pantry stringify fuel options
       (orderListNormalized cookbook options) st)
    (orderListNormalized cookbook options) out st'.
Proof.
  intros Hcook Hb.
  apply cook_returns in Hcook as (items & Hprep & Hreq & Hix & Hout).
  rewrite Hb in Hout.
  destruct (plating_unbudgeted (explainOf options) (fst (selectPlan None items))
              items initialPlating) as (Hl & Ht & ps & Hp & HF).
  { intros p Hp. apply unbudgeted_lookup; [by apply indexed_NoDup|done]. }
  exists items. split; [exact Hprep|]. split; [exact Hreq|]. split.
  - rewrite Hout, contextOf_serve. unfold plating. fold initialPlating. by rewrite Hl.
  - intros r Hr. rewrite Hout in Hr. unfold serve in Hr.
    destruct (explainOf options); [|done].
    assert (Hr1 : plates r = platesSoFar (plating None true (fst (selectPlan None items)) items))
      by by injection Hr as <-.
    assert (Hr2 : totalTokens r = runningTotal (plating None true (fst (selectPlan None items)) items))
      by by injection Hr as <-.
    rewrite Hr1, Hr2. unfold plating. fold initialPlating. rewrite Ht, Hp. simpl.
    split; [lia|]. by apply HF.
Qed.

Lemma unbudgeted_serves_all_witness :
  cook Hitl.cookbook (Hitl.pantry "1234") Json.stringify 5 Hitl.unbudgeted fresh
    = (Ok (Explained (explainedOf Hitl.run_unbudgeted)), snd Hitl.run_unbudgeted)
  ∧ budgetOf Hitl.unbudgeted = None
  ∧ servedUnbudgeted
      (prepareItems Hitl.cookbook (Hitl.pantry "1234") Json.stringify 5 Hitl.unbudgeted
         (orderListNormalized Hitl.cookbook Hitl.unbudgeted) fresh)
      (orderListNormalized Hitl.cookbook Hitl.unbudgeted)
      (Explained (explainedOf Hitl.run_unbudgeted)) (snd Hitl.run_unbudgeted).
Proof.
  split; [vm_compute; reflexivity|]. split; [reflexivity|].
  apply (unbudgeted_serves_all Hitl.cookbook (Hitl.pantry "1234") Json.stringify 5
           Hitl.unbudgeted fresh).
  - vm_compute; reflexivity.
  - reflexivity.
Defined.

(** ** The order in which candidates are planned *)





(** ** The greedy decision for a candidate *)

(** A candidate is dropped exactly when its baseline does not fit and no
    compressed form with a non-empty text fits. *)
Lemma decideCandidate_dropped b total cand :
  Plan.include (decideCandidate b total cand) = false ↔
  b < total + Prepared.baselineCost cand
  ∧ ∀ rendered cost,
      Prepared.compressedRendered cand = Some rendered →
      Prepared.compressedCost cand = Some cost →
      JsString.truthy rendered = true →
      b < total + cost.
Proof.
  unfold decideCandidate.
  destruct (Z.leb_spec (total + Prepared.baselineCost cand) b) as [Hfit|Hnofit]; simpl.
  { split; [done|]. lia. }
  destruct (Prepared.compressedRendered cand) as [rendered|];
    [destruct (Prepared.compressedCost cand) as [cost|]|]; simpl;
    try (split; [intros _; split; [lia|]; by intros|done]).
  destruct (JsString.truthy rendered) eqn:Ht; simpl.
  - destruct (Z.leb_spec (total + cost) b) as [Hc|Hc]; simpl.
    + split; [done|]. intros [_ H]. specialize (H _ _ eq_refl eq_refl Ht). lia.
    + split; [|done]. intros _. split; [lia|]. by intros ? ? [= <-] [= <-] _.
  - split; [|done]. intros _. split; [lia|]. intros ? ? [= <-] _. by rewrite Ht.
Qed.

(** C3.  The candidate [Characters] of the script kitchen has the empty
    text as summary, at cost 0.  With budget 3 it is evaluated at running
    total 2: its baseline cost 5 does not fit, its compressed cost 0 fits,
    and the plan drops it. *)
Theorem empty_summary_dropped_though_it_fits :
  ∃ title characters st r plate,
    prepareItems Script.cookbook Script.pantry Json.stringify 5 (Script.options 3)
      (orderListNormalized Script.cookbook (Script.options 3)) fresh
    = (Ok [title; characters], st)
    ∧ candidates [title; characters] = [characters]
    ∧ snd (planFirst [title; characters]) = 2
    ∧ Prepared.baselineCost characters = 5
    ∧ Prepared.compressedRendered characters = Some EmptyString
    ∧ Prepared.compressedCost characters = Some 0
    ∧ 2 + 0 <= 3
    ∧ decideCandidate 3 2 characters = plan_dropped characters
    ∧ cook Script.cookbook Script.pantry Json.stringify 5 (Script.options 3) fresh
      = (Ok (Explained r), st)
    ∧ plates r !! 1%nat = Some plate
    ∧ Plate.token plate = "Characters"
    ∧ Plate.decision plate = Dropped
    ∧ Plate.compressedCost plate = Some 0
    ∧ Plate.runningTotalBefore plate = 2
    ∧ result_budget r = Some 3.
Proof.
  do 5 eexists.
  split; [vm_compute; reflexivity|].
  repeat split; try (vm_compute; reflexivity).
  vm_compute. discriminate.
Qed.

(** ** The default order *)





(** ** Sub-path extraction in [invokeRecipe] *)

Lemma parseIngredientSpec_subpath spec i :
  JsString.indexOf_dot spec = Some i →
  ∃ path,
    jsonPath (parseIngredientSpec spec) = Some path ∧ JsString.truthy path = true.
Proof.
  intros Hi. unfold parseIngredientSpec. rewrite Hi. simpl. eauto.
Qed.

(** C6.  An ingredient with a declared sub-path resolves to what the
    sub-path addresses in the resolved root value, and the resolution
    throws a contract violation exactly when that is [undefined]; the
    specification's example yields 20 for [.a.b[1]] and the violation for
    [.a.c], without calling the provider. *)
Theorem subpath_resolution (prep : string → M value) desc rest path rootVal st st1 :
  jsonPath desc = Some path →
  JsString.truthy path = true →
  prep (rootToken desc) st = (Ok rootVal, st1) →
  resolveArgs prep (Some desc :: rest) st
  = (if is_undefined (JSONPath rootVal path)
     then (Throw (ContractViolation (rootToken desc) (Some path)), st1)
     else (let* args := resolveArgs prep rest in
           ret (JSONPath rootVal path :: args)) st1)
  ∧ (∀ spec i, JsString.indexOf_dot spec = Some i →
       ∃ p, jsonPath (parseIngredientSpec spec) = Some p ∧ JsString.truthy p = true)
  ∧ SubPath.second = {| rootToken := "root"; jsonPath := Some "$.a.b[1]" |}
  ∧ JSONPath SubPath.root "$.a.b[1]" = VNum 20
  ∧ JSONPath SubPath.root "$.a.c" = VUndefined
  ∧ (∃ st', prepare SubPath.cookbook SubPath.pantry 2 "Second" fresh = (Ok (VNum 20), st')
            ∧ invoked st' = [1%nat])
  ∧ (∃ st', prepare SubPath.cookbook SubPath.pantry 2 "Absent" fresh
            = (Throw (ContractViolation "root" (Some "$.a.c")), st')
            ∧ invoked st' = []).
Proof.
  intros Hpath Htruthy Hroot. split.
  { simpl. unfold bind at 1. rewrite Hroot. unfold drill. rewrite Hpath, Htruthy.
    by destruct (is_undefined (JSONPath rootVal path)). }
  split; [apply parseIngredientSpec_subpath|].
  repeat split; try reflexivity.
  - eexists. split; vm_compute; reflexivity.
  - eexists. split; vm_compute; reflexivity.
Qed.

Lemma subpath_resolution_witness :
  jsonPath SubPath.second = Some "$.a.b[1]"
  ∧ JsString.truthy "$.a.b[1]" = true
  ∧ prepare SubPath.cookbook SubPath.pantry 1 (rootToken SubPath.second) fresh
    = (Ok SubPath.root, fresh)
  ∧ resolveArgs (prepare SubPath.cookbook SubPath.pantry 1) [Some SubPath.second] fresh
    = (Ok [VNum 20], fresh).
Proof.
  split; [reflexivity|]. split; [reflexivity|]. split; [reflexivity|].
  destruct (subpath_resolution (prepare SubPath.cookbook SubPath.pantry 1)
              SubPath.second [] "$.a.b[1]" SubPath.root fresh fresh
              eq_refl eq_refl eq_refl) as [-> _].
  reflexivity.
Defined.

(** ** The [try] block around the summary *)

Section SummaryFacts.

Variable cookbook : Cookbook.
Variable pantry : gmap string ProviderOrValue.
Variable stringify : value → completion string.

Lemma prepareItem_phases fuel options it st :
  prepareItem cookbook pantry stringify fuel options it st
  = (let* base := baselinePhase cookbook pantry stringify fuel options it in
     let* fb := probeSummary cookbook pantry stringify fuel options
                  (cookbook_get (order_token it) cookbook) in
     finishItem cookbook pantry fuel options it base fb) st.
Proof.
  unfold prepareItem, baselinePhase, finishItem, bind, await, ret.
  destruct (prepare cookbook pantry fuel (order_token it) st) as [[v| |] st0]; [|done..].
  destruct (materialize _ _ v) as [m|]; simpl; [|done].
  destruct (render stringify m) as [rendered|]; simpl; [|done].
  destruct (countTokensFn options rendered) as [cost|]; simpl; [|done].
  reflexivity.
Qed.

Lemma probeSummary_swallows fuel options ctor summaryToken st e st1 :
  summaryTokenOf ctor = Some summaryToken →
  summaryTry cookbook pantry stringify fuel options summaryToken st = (Throw e, st1) →
  ∃ fb,
    probeSummary cookbook pantry stringify fuel options ctor st = (Ok fb, st1)
    ∧ fb_cost fb = None ∧ fb_note fb = None.
Proof.
  intros Htok Htry. unfold probeSummary. rewrite Htok.
  unfold summaryTry, bind, await, ret in Htry.
  destruct (prepare cookbook pantry fuel summaryToken st) as [[v| |] st0];
    [|injection Htry as _ <-; by eexists|done].
  destruct (render stringify v) as [rendered|]; simpl in Htry;
    [|injection Htry as _ <-; by eexists].
  destruct (countTokensFn options rendered) as [cost|]; simpl in Htry;
    [done|injection Htry as _ <-; by eexists].
Qed.

Lemma finishItem_fallback fuel options it base fb st p st' :
  finishItem cookbook pantry fuel options it base fb st = (Ok p, st') →
  Prepared.compressedRendered p = fb_rendered fb
  ∧ Prepared.compressedCost p = fb_cost fb
  ∧ Prepared.compressionNote p = fb_note fb.
Proof.
  unfold finishItem. intros H. invert_bind H. by injection H as <- _.
Qed.

Lemma no_cost_withoutFallback p :
  Prepared.compressedCost p = None → Prepared.compressionNote p = None →
  withoutFallback p.
Proof.
  intros Hc Hn. unfold withoutFallback, decideFirst, decideCandidate.
  rewrite Hc. repeat split; try done.
  - by destruct (Prepared.compressedRendered p).
  - intros b total. destruct (_ <=? _); [done|].
    by destruct (Prepared.compressedRendered p).
Qed.

(** C7.  For an item whose recipe declares [compressible] and a summary
    token: when resolving, rendering or costing the summary throws, the
    [try] block ends without fallback and without rethrowing, the loop body
    goes on with the ranking and the trace, and the item it prepares has no
    compressed cost, is never planned compressed, and has a plate without
    compressed cost. *)
Theorem summary_failure_swallowed fuel options it summaryToken st base st0 e st1 :
  summaryTokenOf (cookbook_get (order_token it) cookbook) = Some summaryToken →
  baselinePhase cookbook pantry stringify fuel options it st = (Ok base, st0) →
  summaryTry cookbook pantry stringify fuel options summaryToken st0 = (Throw e, st1) →
  ∃ fb,
    probeSummary cookbook pantry stringify fuel options
      (cookbook_get (order_token it) cookbook) st0 = (Ok fb, st1)
    ∧ fb_cost fb = None
    ∧ prepareItem cookbook pantry stringify fuel options it st
      = finishItem cookbook pantry fuel options it base fb st1
    ∧ ∀ p st',
        prepareItem cookbook pantry stringify fuel options it st = (Ok p, st') →
        withoutFallback p.
Proof.
  intros Htok Hbase Htry.
  destruct (probeSummary_swallows _ _ _ _ _ _ _ Htok Htry) as (fb & Hprobe & Hcost & Hnote).
  exists fb. split; [exact Hprobe|]. split; [exact Hcost|].
  assert (Heq : prepareItem cookbook pantry stringify fuel options it st
                = finishItem cookbook pantry fuel options it base fb st1).
  { rewrite prepareItem_phases. unfold bind at 1. rewrite Hbase.
    unfold bind at 1. by rewrite Hprobe. }
  split; [exact Heq|].
  intros p st' Hp. rewrite Heq in Hp.
  apply finishItem_fallback in Hp as (_ & Hc & Hn).
  apply no_cost_withoutFallback; congruence.
Qed.

End SummaryFacts.

(** ** What the calls of an instance do to its caches *)

Section Steps.

Variable cookbook : Cookbook.
Variable pantry : gmap string ProviderOrValue.
Variable stringify : value → completion string.

(** A relation between the state before and after that every call of
    [prepare] respects. *)
Variable R : ChefState → ChefState → Prop.
Hypothesis R_refl : ∀ st, R st st.
Hypothesis R_trans : ∀ st1 st2 st3, R st1 st2 → R st2 st3 → R st1 st3.
Hypothesis R_prepare :
  ∀ fuel token st r st', prepare cookbook pantry fuel token st = (r, st') → R st st'.

Lemma baselinePhase_step fuel options it st r st' :
  baselinePhase cookbook pantry stringify fuel options it st = (r, st') → R st st'.
Proof.
  unfold baselinePhase, bind, await, ret.
  destruct (prepare cookbook pantry fuel (order_token it) st) as [o st0] eqn:E.
  apply R_prepare in E. intros H.
  assert (st' = st0) as ->; [|done].
  destruct o as [v| |]; try by injection H.
  destruct (materialize _ _ v) as [m|]; simpl in H; [|by injection H].
  destruct (render stringify m) as [rendered|]; simpl in H; [|by injection H].
  destruct (countTokensFn options rendered); simpl in H; by injection H.
Qed.

Lemma probeSummary_step fuel options ctor st r st' :
  probeSummary cookbook pantry stringify fuel options ctor st = (r, st') → R st st'.
Proof.
  unfold probeSummary. destruct (summaryTokenOf ctor) as [summaryToken|].
  - destruct (prepare cookbook pantry fuel summaryToken st) as [o st0] eqn:E.
    apply R_prepare in E. intros H.
    assert (st' = st0) as ->; [|done].
    destruct o as [v| |]; try by injection H.
    destruct (render stringify v) as [rendered|]; [|by injection H].
    destruct (countTokensFn options rendered); by injection H.
  - intros [= _ <-]. apply R_refl.
Qed.

Lemma finishItem_step fuel options it base fb st r st' :
  finishItem cookbook pantry fuel options it base fb st = (r, st') → st' = st.
Proof.
  unfold finishItem, bind, await, ret, traceIf.
  destruct (rankPriorityFn options _) as [score|]; simpl; [|by intros [= _ <-]].
  destruct (explainOf options); [|by intros [= _ <-]].
  destruct (trace cookbook pantry fuel (order_token it)); by intros [= _ <-].
Qed.

Lemma prepareItem_step fuel options it st r st' :
  prepareItem cookbook pantry stringify fuel options it st = (r, st') → R st st'.
Proof.
  rewrite prepareItem_phases. unfold bind at 1.
  destruct (baselinePhase cookbook pantry stringify fuel options it st)
    as [o st0] eqn:E0.
  apply baselinePhase_step in E0.
  destruct o as [base| |]; [|by intros [= _ <-]..].
  unfold bind at 1.
  destruct (probeSummary cookbook pantry stringify fuel options _ st0)
    as [o1 st1] eqn:E1.
  apply probeSummary_step in E1.
  destruct o1 as [fb| |]; [|intros [= _ <-]; by eapply R_trans..].
  intros H. apply finishItem_step in H as ->. by eapply R_trans.
Qed.

Lemma prepareItems_step fuel options items st r st' :
  prepareItems cookbook pantry stringify fuel options items st = (r, st') → R st st'.
Proof.
  revert st r st'. induction items as [|it items IH]; intros st r st'; simpl.
  - intros [= _ <-]. apply R_refl.
  - unfold bind at 1.
    destruct (prepareItem cookbook pantry stringify fuel options it st)
      as [o st0] eqn:E0.
    apply prepareItem_step in E0.
    destruct o as [p| |]; [|by intros [= _ <-]..].
    unfold bind at 1.
    destruct (prepareItems cookbook pantry stringify fuel options items st0)
      as [o1 st1] eqn:E1.
    apply IH in E1.
    destruct o1; intros [= _ <-]; by eapply R_trans.
Qed.

Lemma cook_step fuel options st r st' :
  cook cookbook pantry stringify fuel options st = (r, st') → R st st'.
Proof.
  unfold cook, bind.
  destruct (prepareItems cookbook pantry stringify fuel options _ st)
    as [o st0] eqn:E0.
  apply prepareItems_step in E0.
  destruct o; by intros [= _ <-].
Qed.

Lemma later_step st st' : later cookbook pantry stringify st st' → R st st'.
Proof.
  induction 1 as [st|st st1 fuel token r st2 _ IH Hp|st st1 fuel options r st2 _ IH Hc].
  - apply R_refl.
  - eapply R_trans; [exact IH|]. by eapply R_prepare.
  - eapply R_trans; [exact IH|]. by eapply cook_step.
Qed.

End Steps.

(** ** Memoization *)

Lemma keeps_refl id v st : keeps id v st st.
Proof. by intros H. Qed.

Lemma keeps_trans id v st1 st2 st3 :
  keeps id v st1 st2 → keeps id v st2 st3 → keeps id v st1 st3.
Proof.
  intros H12 H23 H1. destruct (H12 H1) as [H2 Hn2].
  destruct (H23 H2) as [H3 Hn3]. split; [done|congruence].
Qed.

Lemma getInstance_caches ctor st :
  ∃ st', getInstance ctor st = (Ok (), st')
         ∧ valueCache st' = valueCache st ∧ invoked st' = invoked st.
Proof. unfold getInstance. destruct (decide _); eauto. Qed.

Lemma invocations_cons_ne id called st st' :
  called ≠ id → invoked st' = called :: invoked st →
  invocations id st' = invocations id st.
Proof.
  intros Hne Hi. unfold invocations. rewrite Hi, filter_cons.
  by rewrite decide_False.
Qed.

Lemma resolveArgs_step (R : ChefState → ChefState → Prop) (prep : string → M value) :
  (∀ st, R st st) →
  (∀ st1 st2 st3, R st1 st2 → R st2 st3 → R st1 st3) →
  (∀ token st r st', prep token st = (r, st') → R st st') →
  ∀ descs st r st', resolveArgs prep descs st = (r, st') → R st st'.
Proof.
  intros Hrefl Htrans Hprep.
  induction descs as [|[desc|] descs IH]; intros st r st'; simpl.
  - intros [= _ <-]. apply Hrefl.
  - unfold bind at 1.
    destruct (prep (rootToken desc) st) as [o st0] eqn:E0. apply Hprep in E0.
    destruct o as [rootVal| |]; [|by intros [= _ <-]..].
    destruct (is_undefined (drill desc rootVal)); [by intros [= _ <-]|].
    unfold bind.
    destruct (resolveArgs prep descs st0) as [o1 st1] eqn:E1. apply IH in E1.
    destruct o1; intros [= _ <-]; by eapply Htrans.
  - unfold bind.
    destruct (resolveArgs prep descs st) as [o1 st1] eqn:E1. apply IH in E1.
    by destruct o1; intros [= _ <-].
Qed.

Section Memo.

Variable cookbook : Cookbook.
Variable pantry : gmap string ProviderOrValue.

(** What a call of [prepare] that reaches the cookbook does. *)
Lemma prepare_recipe fuel token ctor st :
  pantry !! token = None → cookbook_get token cookbook = Some ctor →
  prepare cookbook pantry (S fuel) token st
  = match valueCache st !! ctor_id ctor with
    | Some cached => (Ok cached, st)
    | None =>
        (let* cooked := invokeRecipe_with (prepare cookbook pantry fuel) ctor in
         let* _ := valueCache_set ctor cooked in
         ret cooked) st
    end.
Proof. intros Hp Hc. simpl. by rewrite Hp, Hc. Qed.

Lemma prepare_elsewhere fuel token st :
  (is_Some (pantry !! token) ∨ cookbook_get token cookbook = None) →
  ∃ r, prepare cookbook pantry (S fuel) token st = (r, st).
Proof.
  intros H. simpl. destruct (pantry !! token) as [[v|get]|] eqn:Ep.
  - by eexists.
  - by eexists.
  - destruct H as [[? ?]| ->]; [done|]. by eexists.
Qed.

Lemma prepare_keeps id v fuel token st r st' :
  prepare cookbook pantry fuel token st = (r, st') → keeps id v st st'.
Proof.
  revert token st r st'. induction fuel as [|fuel IH]; intros token st r st'.
  { intros [= _ <-]. apply keeps_refl. }
  destruct (pantry !! token) as [entry|] eqn:Ep.
  { destruct (prepare_elsewhere fuel token st) as [r0 ->]; [left; eauto|].
    intros [= _ <-]. apply keeps_refl. }
  destruct (cookbook_get token cookbook) as [ctor|] eqn:Ec.
  2:{ destruct (prepare_elsewhere fuel token st) as [r0 ->]; [by right|].
      intros [= _ <-]. apply keeps_refl. }
  rewrite (prepare_recipe _ _ _ _ Ep Ec).
  destruct (valueCache st !! ctor_id ctor) as [cached|] eqn:Ev.
  { intros [= _ <-]. apply keeps_refl. }
  intros H Hid.
  assert (Hne : ctor_id ctor ≠ id) by (intros Heq; rewrite Heq in Ev; congruence).
  unfold invokeRecipe_with, bind in H.
  destruct (getInstance_caches ctor st) as (stg & Hg & Hgv & Hgi).
  rewrite Hg in H.
  destruct (resolveArgs (prepare cookbook pantry fuel) (paramDescs ctor) stg)
    as [o sta] eqn:Ea.
  apply (resolveArgs_step (keeps id v)) in Ea;
    [|apply keeps_refl|apply keeps_trans|exact IH].
  destruct Ea as [Hav Hai]; [by rewrite Hgv|].
  assert (Hgn : invocations id stg = invocations id st)
    by (unfold invocations; by rewrite Hgi).
  rewrite Hgn in Hai.
  destruct o as [args| |]; [|by injection H as _ <-..].
  unfold call_prepare in H.
  destruct (lift (recipe_prepare ctor args)) as [cooked| |];
    simpl in H; injection H as _ <-; simpl.
  - rewrite lookup_insert_ne by done. split; [done|].
    rewrite <- Hai. by eapply invocations_cons_ne.
  - split; [done|]. rewrite <- Hai. by eapply invocations_cons_ne.
  - split; [done|]. rewrite <- Hai. by eapply invocations_cons_ne.
Qed.

(** A call of [prepare] that returns a value from the cookbook has it
    cached under the identity of the recipe class. *)
Lemma prepare_cached fuel token ctor st v st' :
  pantry !! token = None → cookbook_get token cookbook = Some ctor →
  prepare cookbook pantry fuel token st = (Ok v, st') →
  valueCache st' !! ctor_id ctor = Some v.
Proof.
  intros Hp Hc. destruct fuel as [|fuel]; [done|].
  rewrite (prepare_recipe _ _ _ _ Hp Hc).
  destruct (valueCache st !! ctor_id ctor) as [cached|] eqn:Ev.
  { by intros [= <- <-]. }
  unfold bind. destruct (invokeRecipe_with _ ctor st) as [[cooked| |] st0]; [|done..].
  simpl. intros [= <- <-]. simpl. apply lookup_insert_eq.
Qed.

Lemma prepare_hit fuel token ctor st v :
  pantry !! token = None → cookbook_get token cookbook = Some ctor →
  valueCache st !! ctor_id ctor = Some v →
  prepare cookbook pantry (S fuel) token st = (Ok v, st).
Proof. intros Hp Hc Hv. rewrite (prepare_recipe _ _ _ _ Hp Hc). by rewrite Hv. Qed.

End Memo.

(** C5.  Once [prepare] has returned a value for a token of a recipe
    class, that class is not called again for the lifetime of the
    instance: in every later state, also after further calls of [cook],
    the value is cached under the identity of the class, and resolving the
    token, or another token registered to the same class, returns that
    value and leaves the state as it is. *)
Theorem provider_memoized cookbook pantry stringify fuel token ctor st v st1 st2 :
  pantry !! token = None →
  cookbook_get token cookbook = Some ctor →
  prepare cookbook pantry fuel token st = (Ok v, st1) →
  later cookbook pantry stringify st1 st2 →
  memoized cookbook pantry ctor v st1 st2.
Proof.
  intros Hp Hc Hprep Hlater.
  assert (Hv1 := prepare_cached _ _ _ _ _ _ _ _ Hp Hc Hprep).
  assert (Hkeeps : keeps (ctor_id ctor) v st1 st2).
  { eapply (later_step cookbook pantry stringify (keeps (ctor_id ctor) v));
      [apply keeps_refl|apply keeps_trans| |exact Hlater].
    intros. by eapply prepare_keeps. }
  destruct (Hkeeps Hv1) as [Hv2 Hn].
  split; [exact Hv2|]. split; [exact Hn|].
  intros fuel' alias ctor' Hp' Hc' Hid.
  apply (prepare_hit _ _ _ _ ctor'); [done..|]. by rewrite Hid.
Qed.

Lemma provider_memoized_witness :
  Hitl.pantry "1234" !! "SystemDirective" = None
  ∧ cookbook_get "SystemDirective" Hitl.cookbook = Some Hitl.SystemDirective
  ∧ prepare Hitl.cookbook (Hitl.pantry "1234") 2 "SystemDirective" fresh
    = (Ok (VStr "## OBJECTIVE: Assist the user to the best of your ability."),
       Hitl.directive_cached)
  ∧ later Hitl.cookbook (Hitl.pantry "1234") Json.stringify
      Hitl.directive_cached
      (snd (cook Hitl.cookbook (Hitl.pantry "1234") Json.stringify 5 (Hitl.options 100)
              Hitl.directive_cached))
  ∧ memoized Hitl.cookbook (Hitl.pantry "1234") Hitl.SystemDirective
      (VStr "## OBJECTIVE: Assist the user to the best of your ability.")
      Hitl.directive_cached
      (snd (cook Hitl.cookbook (Hitl.pantry "1234") Json.stringify 5 (Hitl.options 100)
              Hitl.directive_cached)).
Proof.
  assert (Hlater : later Hitl.cookbook (Hitl.pantry "1234") Json.stringify
            Hitl.directive_cached
            (snd (cook Hitl.cookbook (Hitl.pantry "1234") Json.stringify 5
                    (Hitl.options 100) Hitl.directive_cached))).
  { eapply later_cook; [apply later_now|]. apply surjective_pairing. }
  split; [reflexivity|]. split; [reflexivity|].
  split; [vm_compute; reflexivity|]. split; [exact Hlater|].
  apply (provider_memoized Hitl.cookbook (Hitl.pantry "1234") Json.stringify 2
           "SystemDirective" Hitl.SystemDirective fresh _ _ _).
  - reflexivity.
  - reflexivity.
  - vm_compute; reflexivity.
  - exact Hlater.
Defined.

(** The summary recipe of the HITL kitchen throws when the session has no
    log.  Two calls of [cook] on one instance both return, and the recipe
    is called in each of them. *)
Lemma failing_provider_invoked_again :
  ∃ out1 st1 out2 st2,
    cook Hitl.cookbook (Hitl.pantry "none") Json.stringify 5 (Hitl.options 100) fresh
      = (Ok out1, st1)
    ∧ cook Hitl.cookbook (Hitl.pantry "none") Json.stringify 5 (Hitl.options 100) st1
      = (Ok out2, st2)
    ∧ invocations (ctor_id Hitl.ConversationHistorySummary) st1 = 1%nat
    ∧ invocations (ctor_id Hitl.ConversationHistorySummary) st2 = 2%nat.
Proof.
  do 4 eexists. split; [vm_compute; reflexivity|].
  split; [vm_compute; reflexivity|]. split; vm_compute; reflexivity.
Qed.

(** ** Termination of the resolver *)

Section Termination.

Variable cookbook : Cookbook.
Variable pantry : gmap string ProviderOrValue.

Abbreviation prepare' := (prepare cookbook pantry).

Lemma resolveArgs_settles n descs :
  (∀ desc, Some desc ∈ descs → settles cookbook pantry (rootToken desc) n) →
  ∀ st, ∃ r st',
    r ≠ OutOfFuel
    ∧ ∀ fuel, (n ≤ fuel)%nat → resolveArgs (prepare' fuel) descs st = (r, st').
Proof.
  induction descs as [|[desc|] descs IH]; intros Hall st.
  - exists (Ok []), st. by split.
  - destruct (Hall desc (list_elem_of_here _ _) st) as (r0 & st0 & Hr0 & H0).
    assert (Hrest : ∀ d, Some d ∈ descs → settles cookbook pantry (rootToken d) n)
      by (intros d Hd; apply Hall; by right).
    destruct r0 as [rootVal| |]; [| |done].
    + destruct (is_undefined (drill desc rootVal)) eqn:Eu.
      * eexists (Throw _), st0. split; [done|]. intros fuel Hf. simpl.
        unfold bind. rewrite (H0 _ Hf), Eu. reflexivity.
      * destruct (IH Hrest st0) as (r1 & st1 & Hr1 & H1).
        destruct r1 as [args| |]; [| |done].
        -- exists (Ok (drill desc rootVal :: args)), st1. split; [done|].
           intros fuel Hf. simpl. unfold bind at 1. rewrite (H0 _ Hf), Eu.
           unfold bind. by rewrite (H1 _ Hf).
        -- exists (Throw e), st1. split; [done|].
           intros fuel Hf. simpl. unfold bind at 1. rewrite (H0 _ Hf), Eu.
           unfold bind. by rewrite (H1 _ Hf).
    + exists (Throw e), st0. split; [done|]. intros fuel Hf. simpl.
      unfold bind. by rewrite (H0 _ Hf).
  - assert (Hrest : ∀ d, Some d ∈ descs → settles cookbook pantry (rootToken d) n)
      by (intros d Hd; apply Hall; by right).
    destruct (IH Hrest st) as (r1 & st1 & Hr1 & H1).
    destruct r1 as [args| |]; [| |done].
    + exists (Ok (VUndefined :: args)), st1. split; [done|].
      intros fuel Hf. simpl. unfold bind. by rewrite (H1 _ Hf).
    + exists (Throw e), st1. split; [done|].
      intros fuel Hf. simpl. unfold bind. by rewrite (H1 _ Hf).
Qed.

Lemma prepare_settles rank token :
  acyclicFrom cookbook pantry rank token →
  ∀ n t, rtc (dependsOn cookbook pantry) token t → (rank t < n)%nat →
         settles cookbook pantry t n.
Proof.
  intros Hacyclic. induction n as [|n IH]; intros t Hreach Hrank; [lia|].
  intros st.
  destruct (pantry !! t) as [entry|] eqn:Ep.
  { destruct entry as [v|get].
    - exists (Ok v), st. split; [done|]. intros [|fuel] Hf; [lia|].
      simpl. by rewrite Ep.
    - exists (lift get), st. split; [by destruct get|]. intros [|fuel] Hf; [lia|].
      simpl. by rewrite Ep. }
  destruct (cookbook_get t cookbook) as [ctor|] eqn:Ec.
  2:{ exists (Throw (UnresolvedToken t)), st. split; [done|].
      intros [|fuel] Hf; [lia|]. simpl. by rewrite Ep, Ec. }
  destruct (valueCache st !! ctor_id ctor) as [cached|] eqn:Ev.
  { exists (Ok cached), st. split; [done|]. intros [|fuel] Hf; [lia|].
    rewrite (prepare_recipe _ _ _ _ _ _ Ep Ec). by rewrite Ev. }
  destruct (getInstance_caches ctor st) as (stg & Hg & _ & _).
  destruct (resolveArgs_settles n (paramDescs ctor)) with (st := stg)
    as (ra & sta & Hra & Ha).
  { intros desc Hdesc.
    assert (Hdep : dependsOn cookbook pantry t (rootToken desc)).
    { split; [done|]. by exists ctor, desc. }
    apply IH.
    - eapply rtc_r; [exact Hreach|exact Hdep].
    - pose proof (Hacyclic _ _ Hreach Hdep). lia. }
  destruct ra as [args| |]; [| |done].
  - destruct (recipe_prepare ctor args) as [cooked|e] eqn:Er.
    + eexists (Ok cooked), _. split; [done|]. intros [|fuel] Hf; [lia|].
      rewrite (prepare_recipe _ _ _ _ _ _ Ep Ec), Ev.
      unfold invokeRecipe_with, bind. rewrite Hg, (Ha fuel) by lia.
      unfold call_prepare. rewrite Er. simpl. reflexivity.
    + eexists (Throw e), _. split; [done|]. intros [|fuel] Hf; [lia|].
      rewrite (prepare_recipe _ _ _ _ _ _ Ep Ec), Ev.
      unfold invokeRecipe_with, bind. rewrite Hg, (Ha fuel) by lia.
      unfold call_prepare. rewrite Er. simpl. reflexivity.
  - exists (Throw e), sta. split; [done|]. intros [|fuel] Hf; [lia|].
    rewrite (prepare_recipe _ _ _ _ _ _ Ep Ec), Ev.
    unfold invokeRecipe_with, bind. by rewrite Hg, (Ha fuel) by lia.
Qed.

(** *** Cycles *)

Variable cyc : nat → Prop.

Abbreviation onCycle := (resolvedIn cookbook pantry cyc).

Abbreviation blocked := (blocked cookbook pantry cyc).

Lemma resolveArgs_blocked prep descs st r st' :
  blocked prep → uncached cyc st →
  resolveArgs prep descs st = (r, st') →
  uncached cyc st'
  ∧ ((∃ desc, Some desc ∈ descs ∧ onCycle (rootToken desc)) → is_Ok r = false).
Proof.
  intros Hb. revert st r st'.
  induction descs as [|[desc|] descs IH]; intros st r st' Hu; simpl.
  - intros [= <- <-]. split; [done|]. intros (d & Hd & _). by apply elem_of_nil in Hd.
  - unfold bind at 1.
    destruct (prep (rootToken desc) st) as [o st0] eqn:E0.
    destruct (Hb _ _ _ _ Hu E0) as [Hu0 Hon].
    destruct o as [rootVal| |]; [|by intros [= <- <-]..].
    destruct (is_undefined (drill desc rootVal)); [by intros [= <- <-]|].
    unfold bind.
    destruct (resolveArgs prep descs st0) as [o1 st1] eqn:E1.
    destruct (IH _ _ _ Hu0 E1) as [Hu1 Hrest].
    destruct o1 as [args| |]; intros [= <- <-]; (split; [done|]); try done.
    intros (d & Hd & Hdon). apply elem_of_cons in Hd as [[= <-]|Hd].
    + by specialize (Hon Hdon).
    + assert (is_Ok (Ok args) = false) by (apply Hrest; eauto). done.
  - unfold bind.
    destruct (resolveArgs prep descs st) as [o1 st1] eqn:E1.
    destruct (IH _ _ _ Hu E1) as [Hu1 Hrest].
    destruct o1 as [args| |]; intros [= <- <-]; (split; [done|]); try done.
    intros (d & Hd & Hdon). apply elem_of_cons in Hd as [?|Hd]; [done|].
    assert (is_Ok (Ok args) = false) by (apply Hrest; eauto). done.
Qed.

Hypothesis cyc_cyclic : cyclic cookbook pantry cyc.

Lemma prepare_blocked fuel : blocked (prepare' fuel).
Proof.
  induction fuel as [|fuel IH]; intros token st r st' Hu.
  { intros [= <- <-]. by split. }
  destruct (pantry !! token) as [entry|] eqn:Ep.
  { destruct (prepare_elsewhere cookbook pantry fuel token st) as [r0 ->]; [left; eauto|].
    intros [= <- <-]. split; [done|]. intros [Hp _]. congruence. }
  destruct (cookbook_get token cookbook) as [ctor|] eqn:Ec.
  2:{ destruct (prepare_elsewhere cookbook pantry fuel token st) as [r0 ->]; [by right|].
      intros [= <- <-]. split; [done|]. intros (_ & c & Hc & _). congruence. }
  rewrite (prepare_recipe _ _ _ _ _ _ Ep Ec).
  destruct (valueCache st !! ctor_id ctor) as [cached|] eqn:Ev.
  { intros [= <- <-]. split; [done|]. intros (_ & c & Hc & Hcyc).
    rewrite Ec in Hc. injection Hc as <-. rewrite (Hu _ Hcyc) in Ev. done. }
  unfold invokeRecipe_with, bind.
  destruct (getInstance_caches ctor st) as (stg & Hg & Hgv & _). rewrite Hg.
  assert (Hug : uncached cyc stg) by (intros id Hid; rewrite Hgv; by apply Hu).
  destruct (resolveArgs (prepare' fuel) (paramDescs ctor) stg) as [o sta] eqn:Ea.
  destruct (resolveArgs_blocked _ _ _ _ _ IH Hug Ea) as [Hua Hargs].
  destruct o as [args| |]; [|intros [= <- <-]; by split..].
  assert (Hnot : ¬ cyc (ctor_id ctor)).
  { intros Hcyc. destruct (cyc_cyclic _ _ Ep Ec Hcyc) as (desc & Hd & Hdon).
    assert (is_Ok (Ok args) = false) by (apply Hargs; eauto). done. }
  unfold call_prepare.
  destruct (lift (recipe_prepare ctor args)) as [cooked| |]; simpl;
    intros [= <- <-]; simpl.
  - split.
    + intros id Hid. simpl. rewrite lookup_insert_ne; [by apply Hua|].
      intros <-. done.
    + intros (_ & c & Hc & Hcyc). rewrite Ec in Hc. by injection Hc as <-.
  - split; [|done]. intros id Hid. simpl. by apply Hua.
  - split; [|done]. intros id Hid. simpl. by apply Hua.
Qed.

Hypothesis cyc_first : cyclicFirst cookbook pantry cyc.

Lemma resolveArgs_holes prep holes descs st :
  Forall (λ hole, hole = None) holes →
  ∀ st', resolveArgs prep descs st = (OutOfFuel, st') →
         resolveArgs prep (holes ++ descs) st = (OutOfFuel, st').
Proof.
  induction 1 as [|hole holes -> _ IH]; intros st' Hd; simpl; [done|].
  unfold bind. by rewrite (IH _ Hd).
Qed.

Lemma prepare_spins fuel token st :
  uncached cyc st → onCycle token →
  ∃ st', prepare' fuel token st = (OutOfFuel, st') ∧ uncached cyc st'.
Proof.
  revert token st. induction fuel as [|fuel IH]; intros token st Hu Hon.
  { by exists st. }
  destruct Hon as (Ep & ctor & Ec & Hcyc).
  rewrite (prepare_recipe _ _ _ _ _ _ Ep Ec), (Hu _ Hcyc).
  destruct (cyc_first _ _ Ep Ec Hcyc) as (holes & desc & rest & Hdescs & Hholes & Hnext).
  unfold invokeRecipe_with, bind.
  destruct (getInstance_caches ctor st) as (stg & Hg & Hgv & _). rewrite Hg.
  assert (Hug : uncached cyc stg) by (intros id Hid; rewrite Hgv; by apply Hu).
  destruct (IH _ _ Hug Hnext) as (st' & Hspin & Hu').
  exists st'. split; [|done].
  rewrite Hdescs, (resolveArgs_holes _ _ _ _ Hholes st'); [done|].
  simpl. unfold bind. by rewrite Hspin.
Qed.

End Termination.

(** C8.  The resolver detects no cycle.  A token whose
    reachable dependencies are acyclic resolves with fuel above its rank,
    to an outcome that more fuel does not change.  A token resolved by a
    recipe class on a dependency cycle never resolves to a value: with any
    fuel the outcome is a throw of one of its ingredients or no outcome
    yet, and no class of the cycle gets cached; when the classes declare
    the cyclic ingredient first, there is no outcome with any fuel. *)
Theorem resolution_without_cycle_detection cookbook pantry rank token cyc st :
  acyclicFrom cookbook pantry rank token →
  cyclic cookbook pantry cyc →
  uncached cyc st →
  (∃ r st',
     r ≠ OutOfFuel
     ∧ ∀ fuel, (rank token < fuel)%nat → prepare cookbook pantry fuel token st = (r, st'))
  ∧ (∀ spinning fuel,
       resolvedIn cookbook pantry cyc spinning →
       ∃ r st',
         prepare cookbook pantry fuel spinning st = (r, st')
         ∧ is_Ok r = false ∧ uncached cyc st')
  ∧ (cyclicFirst cookbook pantry cyc →
     ∀ spinning fuel,
       resolvedIn cookbook pantry cyc spinning →
       ∃ st', prepare cookbook pantry fuel spinning st = (OutOfFuel, st')).
Proof.
  intros Hacyclic Hcyclic Hu. split; [|split].
  - destruct (prepare_settles cookbook pantry rank token Hacyclic (S (rank token)) token)
      with (st := st) as (r & st' & Hr & H); [done|lia|].
    exists r, st'. split; [done|]. intros fuel Hf. apply H. lia.
  - intros spinning fuel Hon.
    destruct (prepare cookbook pantry fuel spinning st) as [r st'] eqn:E.
    destruct (prepare_blocked cookbook pantry cyc Hcyclic fuel _ _ _ _ Hu E) as [Hu' Hr].
    exists r, st'. split; [done|]. split; [by apply Hr|done].
  - intros Hfirst spinning fuel Hon.
    destruct (prepare_spins cookbook pantry cyc Hfirst fuel spinning st Hu Hon)
      as (st' & Hspin & _).
    by exists st'.
Qed.

Lemma cookbook_get_elem token ctor cb :
  cookbook_get token cb = Some ctor → (token, ctor) ∈ cb.
Proof.
  induction cb as [|[k c] cb IH]; simpl; [done|].
  destruct (String.eqb_spec k token) as [->|Hne].
  - intros [= ->]. by left.
  - intros H. right. by apply IH.
Qed.

Lemma cycle_dependsOn t t' :
  dependsOn Cycle.cookbook Cycle.pantry t t' →
  (t = "Ping" ∧ t' = "Pong") ∨ (t = "Pong" ∧ t' = "Ping") ∨ (t = "Echo" ∧ t' = "seed").
Proof.
  intros (_ & ctor & desc & Hc & Hin & <-).
  apply cookbook_get_elem in Hc.
  repeat (apply elem_of_cons in Hc as [[= -> ->]|Hc]);
    [| | |by apply elem_of_nil in Hc];
    simpl in Hin; apply list_elem_of_singleton in Hin; injection Hin as ->; auto.
Qed.

Lemma cycle_acyclic_from_echo :
  acyclicFrom Cycle.cookbook Cycle.pantry Cycle.rank "Echo".
Proof.
  assert (Hreach : ∀ t, rtc (dependsOn Cycle.cookbook Cycle.pantry) "Echo" t →
                        t = "Echo" ∨ t = "seed").
  { apply (rtc_ind_r (λ t, t = "Echo" ∨ t = "seed")); [by left|].
    intros y z Hy Hyz IH.
    apply cycle_dependsOn in Hyz as [[-> _]|[[-> _]|[_ ->]]]; [by destruct IH..|by right]. }
  intros t t' Ht Hdep. specialize (Hreach _ Ht).
  apply cycle_dependsOn in Hdep as [[-> _]|[[-> _]|[-> ->]]]; [by destruct Hreach..|].
  vm_compute. lia.
Qed.

Lemma cycle_cyclicFirst : cyclicFirst Cycle.cookbook Cycle.pantry Cycle.onCycle.
Proof.
  intros token ctor _ Hc Hcyc. apply cookbook_get_elem in Hc.
  repeat (apply elem_of_cons in Hc as [[= -> ->]|Hc]);
    [| | |by apply elem_of_nil in Hc].
  - exists [], (parseIngredientSpec "Pong"), []. split; [reflexivity|].
    split; [constructor|]. split; [reflexivity|].
    exists Cycle.Pong. split; [reflexivity|]. by right.
  - exists [], (parseIngredientSpec "Ping"), []. split; [reflexivity|].
    split; [constructor|]. split; [reflexivity|].
    exists Cycle.Ping. split; [reflexivity|]. by left.
  - destruct Hcyc as [Hcyc|Hcyc]; vm_compute in Hcyc; discriminate.
Qed.

Lemma cycle_cyclic : cyclic Cycle.cookbook Cycle.pantry Cycle.onCycle.
Proof.
  intros token ctor Hp Hc Hcyc.
  destruct (cycle_cyclicFirst token ctor Hp Hc Hcyc)
    as (holes & desc & rest & Hdescs & _ & Hnext).
  exists desc. split; [|done]. rewrite Hdescs.
  apply elem_of_app. right. by left.
Qed.

Lemma resolution_without_cycle_detection_witness :
  acyclicFrom Cycle.cookbook Cycle.pantry Cycle.rank "Echo"
  ∧ cyclic Cycle.cookbook Cycle.pantry Cycle.onCycle
  ∧ uncached Cycle.onCycle fresh
  ∧ (∃ r st',
       r ≠ OutOfFuel
       ∧ ∀ fuel, (Cycle.rank "Echo" < fuel)%nat →
           prepare Cycle.cookbook Cycle.pantry fuel "Echo" fresh = (r, st'))
  ∧ (∀ fuel, ∃ st',
       prepare Cycle.cookbook Cycle.pantry fuel "Ping" fresh = (OutOfFuel, st')).
Proof.
  assert (Hu : uncached Cycle.onCycle fresh) by (intros id _; apply lookup_empty).
  destruct (resolution_without_cycle_detection Cycle.cookbook Cycle.pantry Cycle.rank
              "Echo" Cycle.onCycle fresh cycle_acyclic_from_echo cycle_cyclic Hu)
    as (Hecho & _ & Hspin).
  split; [exact cycle_acyclic_from_echo|]. split; [exact cycle_cyclic|].
  split; [exact Hu|]. split; [exact Hecho|].
  intros fuel. apply (Hspin cycle_cyclicFirst "Ping" fuel).
  split; [reflexivity|]. exists Cycle.Ping. split; [reflexivity|]. by left.
Defined.

(** The recipe [Stuck] depends on itself, and resolving it ends with the
    error of the ingredient declared before. *)
Lemma cycle_behind_failing_ingredient :
  dependsOn Cycle.stuck_cookbook ∅ "Stuck" "Stuck"
  ∧ ∀ fuel, ∃ st',
      prepare Cycle.stuck_cookbook ∅ (S (S fuel)) "Stuck" fresh
      = (Throw (UnresolvedToken "missing"), st').
Proof.
  split.
  - split; [apply lookup_empty|].
    exists Cycle.Stuck, (parseIngredientSpec "Stuck").
    split; [reflexivity|]. split; [|reflexivity]. right. left.
  - intros fuel. eexists. vm_compute. reflexivity.
Qed.

Lemma summary_failure_swallowed_witness :
  summaryTokenOf (cookbook_get (order_token Hitl.historyItem) Hitl.cookbook)
    = Some "ConversationHistorySummary"
  ∧ baselinePhase Hitl.cookbook (Hitl.pantry "none") Json.stringify 5 (Hitl.options 100)
      Hitl.historyItem fresh
    = (Ok ("null", 1), Hitl.history_loaded)
  ∧ summaryTry Hitl.cookbook (Hitl.pantry "none") Json.stringify 5 (Hitl.options 100)
      "ConversationHistorySummary" Hitl.history_loaded
    = (Throw (Raised "TypeError: undefined is not an object"), Hitl.summary_failed)
  ∧ (∃ p,
       prepareItem Hitl.cookbook (Hitl.pantry "none") Json.stringify 5 (Hitl.options 100)
         Hitl.historyItem fresh
       = (Ok p, Hitl.summary_failed)
       ∧ withoutFallback p)
  ∧ is_Ok (fst (cook Hitl.cookbook (Hitl.pantry "none") Json.stringify 5
                  (Hitl.options 100) fresh)) = true.
Proof.
  split; [reflexivity|]. split; [vm_compute; reflexivity|].
  split; [vm_compute; reflexivity|].
  destruct (summary_failure_swallowed Hitl.cookbook (Hitl.pantry "none") Json.stringify
              5 (Hitl.options 100) Hitl.historyItem "ConversationHistorySummary" fresh
              ("null", 1) Hitl.history_loaded
              (Raised "TypeError: undefined is not an object") Hitl.summary_failed)
    as (fb & _ & _ & _ & Hp).
  - reflexivity.
  - vm_compute; reflexivity.
  - vm_compute; reflexivity.
  - split; [|vm_compute; reflexivity].
    eexists. split; [vm_compute; reflexivity|].
    eapply Hp. vm_compute; reflexivity.
Defined.

(** * Further properties of the code *)

(** ** The plan has an entry for every item *)

Lemma plan_entry budget items p :
  indexed items → p ∈ items →
  ∃ d, fst (selectPlan budget items) !! Prepared.index p = Some d
       ∧ decidedBy budget p d.
Proof.
  intros Hix Hp. destruct budget as [b|].
  - destruct items as [|first others]; [by apply elem_of_nil in Hp|].
    destruct (indexed_tail _ _ Hix) as (H0 & _ & Hne).
    apply elem_of_cons in Hp as [->|Hp].
    + exists (decideFirst first). rewrite H0. split; [by apply budget_first_lookup|].
      by left.
    + assert (Hc : p ∈ candidates (first :: others)).
      { eapply elem_of_Permutation_proper; [apply candidates_perm|done]. }
      apply list_elem_of_split in Hc as (pre & post & Hc).
      eexists. split; [by eapply budget_candidate_lookup|].
      right. split; [by apply Hne|]. by eexists.
  - exists (decideUnbudgeted 0 p). split; [|done].
    apply unbudgeted_lookup; [by apply indexed_NoDup|done].
Qed.

(** ** What the plating loop makes of a complete plan *)

Lemma plating_total budget explain plan items acc :
  runningTotal (foldl (plateItem budget explain plan) acc items)
  = runningTotal acc
    + sumZ (map (λ p, contribution (plan !! Prepared.index p)) items).
Proof.
  revert acc. induction items as [|item items IH]; intros acc; simpl.
  - unfold sumZ. simpl. lia.
  - rewrite IH. unfold plateItem, sumZ. simpl.
    destruct (plan !! Prepared.index item) as [d|]; simpl; [|lia].
    destruct (Plan.include d); simpl; lia.
Qed.

Lemma plating_plates budget plan items acc :
  (∀ p, p ∈ items → is_Some (plan !! Prepared.index p)) →
  ∃ ps,
    platesSoFar (foldl (plateItem budget true plan) acc items)
      = (platesSoFar acc ++ ps)%list
    ∧ Forall2 (platedAs budget plan) items ps.
Proof.
  revert acc. induction items as [|item items IH]; intros acc Hall; simpl.
  - exists []. rewrite app_nil_r. by split; [|constructor].
  - destruct (IH (plateItem budget true plan acc item)) as (ps & Hps & HF).
    { intros p Hp. apply Hall. by right. }
    destruct (Hall item) as [d Hd]; [by left|].
    rewrite Hps. unfold plateItem at 1. rewrite Hd. simpl.
    eexists (_ :: ps). rewrite <- app_assoc. split; [reflexivity|].
    constructor; [|done]. exists d. do 2 eexists. split; [done|reflexivity].
Qed.


(** ** The planned total *)





(** ** The explained result, item by item *)

Lemma serve_plated budget items r :
  indexed items →
  serve budget true items = Explained r →
  Forall2 (platedAs budget (fst (selectPlan budget items))) items (plates r)
  ∧ totalTokens r
    = sumZ (map (λ p, contribution (fst (selectPlan budget items) !! Prepared.index p))
              items)
  ∧ result_budget r = budget.
Proof.
  intros Hix Hr. unfold serve in Hr. injection Hr as <-. simpl.
  unfold plating. fold initialPlating.
  destruct (plating_plates budget (fst (selectPlan budget items)) items initialPlating)
    as (ps & -> & HF).
  { intros p Hp. destruct (plan_entry budget items p Hix Hp) as (d & -> & _). by eexists. }
  rewrite plating_total. simpl. split; [done|]. split; [lia|done].
Qed.

Lemma cook_explained cookbook pantry stringify fuel options st r st' :
  cook cookbook pantry stringify fuel options st = (Ok (Explained r), st') →
  ∃ items,
    Forall2 requested (orderListNormalized cookbook options) items
    ∧ indexed items
    ∧ serve (budgetOf options) true items = Explained r.
Proof.
  intros Hcook. apply cook_returns in Hcook as (items & _ & Hreq & Hix & Hout).
  exists items. split; [done|]. split; [done|].
  destruct (explainOf options); [done|]. by unfold serve in Hout.
Qed.






Lemma plated_decided budget items p pl :
  indexed items → p ∈ items →
  platedAs budget (fst (selectPlan budget items)) p pl →
  ∃ d before after, decidedBy budget p d ∧ pl = plateOf budget p d before after.
Proof.
  intros Hix Hp (d & before & after & Hd & ->).
  destruct (plan_entry budget items p Hix Hp) as (d' & Hd' & Hdec).
  rewrite Hd in Hd'. injection Hd' as <-. by exists d, before, after.
Qed.

(** X2.  An explained result has one plate for each requested item, in the
    order of the request, with the token and the detail that were asked
    for; no item is left without plate. *)
Theorem plates_follow_order cookbook pantry stringify fuel options st r st' :
  cook cookbook pantry stringify fuel options st = (Ok (Explained r), st') →
  Forall2 answers (orderListNormalized cookbook options) (plates r).
Proof.
  intros Hcook. apply cook_explained in Hcook as (items & Hreq & Hix & Hserve).
  destruct (serve_plated _ _ _ Hix Hserve) as (HF & _).
  revert HF. generalize (plates r). generalize (fst (selectPlan (budgetOf options) items)).
  clear Hserve Hix. induction Hreq as [|it p its items Hit _ IH]; intros plan ps HF.
  - apply Forall2_nil_inv_l in HF as ->. constructor.
  - apply Forall2_cons_inv_l in HF as (pl & ps' & (d & before & after & _ & ->) & HF & ->).
    constructor; [|by eapply IH].
    destruct Hit as (Ht & Hd & _). by split.
Qed.

Lemma plates_follow_order_witness :
  cook Hitl.cookbook (Hitl.pantry "1234") Json.stringify 5 (Hitl.options 10) fresh
    = (Ok (Explained (explainedOf (Hitl.run 10))), snd (Hitl.run 10))
  ∧ Forall2 answers (orderListNormalized Hitl.cookbook (Hitl.options 10))
      (plates (explainedOf (Hitl.run 10))).
Proof.
  split; [vm_compute; reflexivity|].
  apply (plates_follow_order Hitl.cookbook (Hitl.pantry "1234") Json.stringify 5
           (Hitl.options 10) fresh _ (snd (Hitl.run 10))).
  vm_compute; reflexivity.
Defined.



(** X4.  A plate carries the decision forced-include exactly when it is the
    first plate of a call with a budget. *)
Theorem forced_only_first_under_budget cookbook pantry stringify fuel options st r st' :
  cook cookbook pantry stringify fuel options st = (Ok (Explained r), st') →
  ∀ i pl, plates r !! i = Some pl →
    (Plate.decision pl = ForcedInclude ↔ i = 0%nat ∧ result_budget r ≠ None).
Proof.
  intros Hcook i pl Hi. apply cook_explained in Hcook as (items & _ & Hix & Hserve).
  destruct (serve_plated _ _ _ Hix Hserve) as (HF & _ & ->).
  destruct (Forall2_lookup_r _ _ _ _ _ HF Hi) as (p & Hp & Hplated).
  assert (Hindex := Hix _ _ Hp).
  apply plated_decided in Hplated as (d & before & after & Hdec & ->);
    [|done|apply list_elem_of_lookup; eauto].
  simpl. unfold decisionOf.
  destruct (budgetOf options) as [b|]; simpl in *.
  - destruct Hdec as [[H0 ->]|[Hne _]].
    + destruct (decideFirst_rule p) as (-> & _). simpl.
      rewrite bool_decide_true by done. split; [|done].
      intros _. split; [congruence|done].
    + destruct (Plan.include d); simpl; [rewrite bool_decide_false by done|];
        (split; [done|]); intros [-> _]; congruence.
  - destruct (Plan.include d); simpl; split; try done; by intros [_ ?].
Qed.

Lemma forced_only_first_under_budget_witness :
  cook Hitl.cookbook (Hitl.pantry "1234") Json.stringify 5 (Hitl.options 10) fresh
    = (Ok (Explained (explainedOf (Hitl.run 10))), snd (Hitl.run 10))
  ∧ ∀ i pl, plates (explainedOf (Hitl.run 10)) !! i = Some pl →
      (Plate.decision pl = ForcedInclude
       ↔ i = 0%nat ∧ result_budget (explainedOf (Hitl.run 10)) ≠ None).
Proof.
  split; [vm_compute; reflexivity|].
  apply (forced_only_first_under_budget Hitl.cookbook (Hitl.pantry "1234")
           Json.stringify 5 (Hitl.options 10) fresh _ (snd (Hitl.run 10))).
  vm_compute; reflexivity.
Defined.

(** ** The lineage tracer *)

Lemma seen_has_spec token seen :
  seen_has token seen = true ↔ token ∈ map fst seen.
Proof.
  induction seen as [|[k e] seen IH]; simpl.
  - split; [done|]. intros H. by apply elem_of_nil in H.
  - rewrite orb_true_iff, IH, elem_of_cons.
    destruct (String.eqb_spec k token); intuition congruence.
Qed.

Lemma seen_set_keys token entry seen :
  map fst (seen_set token entry seen)
  = if seen_has token seen then map fst seen else (map fst seen ++ [token])%list.
Proof.
  induction seen as [|[k e] seen IH]; simpl; [done|].
  destruct (String.eqb_spec k token) as [->|Hne]; simpl; [done|].
  rewrite IH. by destruct (seen_has token seen).
Qed.

Lemma seen_set_Forall (P : string * TraceEntry → Prop) token entry seen :
  Forall P seen → P (token, entry) → Forall P (seen_set token entry seen).
Proof.
  intros Hall Hnew. induction Hall as [|[k e] seen Hke Hall IH]; simpl.
  - by constructor.
  - destruct (String.eqb_spec k token) as [->|Hne]; by constructor.
Qed.

Section Tracer.

Variable cookbook : Cookbook.
Variable pantry : gmap string ProviderOrValue.

Lemma entryOk_mono known known' ke :
  known ⊆ known' → entryOk cookbook pantry known ke → entryOk cookbook pantry known' ke.
Proof.
  intros Hsub (Ht & Hd & Hdeps). split; [done|]. split; [done|].
  intros dep Hdep. by apply Hsub, Hdeps.
Qed.

Lemma seen_set_ok token entry seen :
  seenOk cookbook pantry seen →
  trace_token entry = token →
  describes cookbook pantry entry →
  (∀ dep, dep ∈ deps entry → fst dep ∈ map fst seen) →
  seenOk cookbook pantry (seen_set token entry seen)
  ∧ map fst seen ⊆ map fst (seen_set token entry seen)
  ∧ token ∈ map fst (seen_set token entry seen).
Proof.
  intros [Hnd Hall] Ht Hd Hdeps.
  assert (Hsub : map fst seen ⊆ map fst (seen_set token entry seen)).
  { rewrite seen_set_keys. destruct (seen_has token seen); [done|].
    intros k Hk. apply elem_of_app. by left. }
  split; [split|split; [done|]].
  - rewrite seen_set_keys. destruct (seen_has token seen) eqn:Eh; [done|].
    apply NoDup_app. split; [done|]. split; [|apply NoDup_singleton].
    intros k Hk Hk'. apply list_elem_of_singleton in Hk' as ->.
    apply seen_has_spec in Hk. congruence.
  - apply seen_set_Forall.
    + eapply Forall_impl; [exact Hall|]. intros ke. by apply entryOk_mono.
    + split; [done|]. split; [done|]. intros dep Hdep. by apply Hsub, Hdeps.
  - rewrite seen_set_keys. destruct (seen_has token seen) eqn:Eh.
    + by apply seen_has_spec.
    + apply elem_of_app. right. by left.
Qed.

Lemma visitDeps_ok vis descs deps0 seen deps' seen' :
  visits cookbook pantry vis →
  seenOk cookbook pantry seen →
  visitDeps vis descs deps0 seen = Ok (deps', seen') →
  seenOk cookbook pantry seen'
  ∧ map fst seen ⊆ map fst seen'
  ∧ deps' = (deps0 ++ declaredDeps descs)%list
  ∧ ∀ dep, dep ∈ declaredDeps descs → fst dep ∈ map fst seen'.
Proof.
  intros Hvis. revert deps0 seen.
  induction descs as [|[desc|] descs IH]; intros deps0 seen Hok; simpl.
  - intros [= <- <-]. rewrite app_nil_r. repeat split; [apply Hok..|done|].
    intros dep Hdep. by apply elem_of_nil in Hdep.
  - destruct (vis (rootToken desc) seen) as [seen1| |] eqn:E1; [|done..].
    destruct (Hvis _ _ _ Hok E1) as (Hok1 & Hsub1 & Hin1).
    intros H. destruct (IH _ _ Hok1 H) as (Hok' & Hsub' & -> & Hdeps).
    split; [done|]. split; [by etrans|]. split; [by rewrite <- app_assoc|].
    intros dep [->|Hdep]%elem_of_cons; [by apply Hsub'|by apply Hdeps].
  - apply IH, Hok.
Qed.

Lemma visit_ok fuel : visits cookbook pantry (visit cookbook pantry fuel).
Proof.
  induction fuel as [|fuel IH]; intros token seen seen' Hok; simpl; [done|].
  destruct (seen_has token seen) eqn:Eh.
  { intros [= <-]. split; [done|]. split; [done|]. by apply seen_has_spec. }
  destruct (pantry !! token) as [entry|] eqn:Ep.
  { intros [= <-]. apply seen_set_ok; [done|done| |].
    - unfold describes. simpl. by rewrite Ep.
    - intros dep Hdep. by apply elem_of_nil in Hdep. }
  destruct (cookbook_get token cookbook) as [ctor|] eqn:Ec; [|done].
  destruct (visitDeps _ (paramDescs ctor) [] seen) as [[deps' seen1]| |] eqn:Ed; [|done..].
  destruct (visitDeps_ok _ _ _ _ _ _ IH Hok Ed) as (Hok1 & Hsub1 & -> & Hdeps).
  intros [= <-].
  destruct (seen_set_ok token
              {| trace_token := token; providerName := name ctor;
                 deps := ([] ++ declaredDeps (paramDescs ctor))%list |} seen1)
    as (Hok' & Hsub' & Hin'); [done|done| |done|].
  - unfold describes. simpl. rewrite Ep. by exists ctor.
  - split; [done|]. split; [by etrans|done].
Qed.

End Tracer.

Lemma visit_lineage cookbook pantry fuel root seen :
  visit cookbook pantry fuel root [] = Ok seen →
  lineageOf cookbook pantry root (map snd seen).
Proof.
  intros Ev.
  destruct (visit_ok cookbook pantry fuel root [] seen) as ((Hnd & Hall) & _ & Hin);
    [split; constructor|done|].
  assert (Hkeys : map trace_token (map snd seen) = map fst seen).
  { rewrite map_map. apply map_ext_Forall.
    eapply Forall_impl; [exact Hall|]. by intros ke (Ht & _). }
  unfold lineageOf. rewrite Hkeys. split; [done|]. split; [done|]. split.
  - apply Forall_fmap. eapply Forall_impl; [exact Hall|]. by intros ke (_ & Hd & _).
  - intros e dep He Hdep. apply list_elem_of_fmap in He as (ke & -> & Hke).
    rewrite Forall_forall in Hall. by apply (Hall ke Hke).
Qed.

(** X5.  The lineage that [trace] returns has exactly one entry per token,
    contains the root, describes every token truly (the pantry, or the
    registered recipe class with the ingredients it declares, in declared
    order), and contains an entry for every dependency it mentions. *)
Theorem trace_is_lineage cookbook pantry fuel root entries :
  trace cookbook pantry fuel root = Ok entries →
  lineageOf cookbook pantry root entries.
Proof.
  unfold trace.
  destruct (visit cookbook pantry fuel root []) as [seen| |] eqn:Ev; [|done..].
  intros [= <-]. by eapply visit_lineage.
Qed.

Lemma trace_is_lineage_witness :
  trace Hitl.cookbook (Hitl.pantry "1234") 5 "ConversationHistorySummary"
    = Ok Hitl_summary_lineage
  ∧ lineageOf Hitl.cookbook (Hitl.pantry "1234") "ConversationHistorySummary"
      Hitl_summary_lineage.
Proof.
  split; [vm_compute; reflexivity|].
  apply (trace_is_lineage Hitl.cookbook (Hitl.pantry "1234") 5).
  vm_compute; reflexivity.
Defined.

Section TracerCycles.

Variable cookbook : Cookbook.
Variable pantry : gmap string ProviderOrValue.
Variable cyc : nat → Prop.
Hypothesis cyc_cyclic : cyclic cookbook pantry cyc.

Lemma unseen_set token entry seen :
  unseen cookbook pantry cyc seen →
  ¬ resolvedIn cookbook pantry cyc token →
  unseen cookbook pantry cyc (seen_set token entry seen).
Proof.
  intros Hu Hnot t. rewrite seen_set_keys.
  destruct (seen_has token seen); [apply Hu|].
  intros [Ht| ->%list_elem_of_singleton]%elem_of_app; [by apply Hu|done].
Qed.

Lemma visitDeps_avoids vis descs deps0 seen deps' seen' :
  avoids cookbook pantry cyc vis →
  unseen cookbook pantry cyc seen →
  visitDeps vis descs deps0 seen = Ok (deps', seen') →
  unseen cookbook pantry cyc seen'
  ∧ ∀ desc, Some desc ∈ descs → ¬ resolvedIn cookbook pantry cyc (rootToken desc).
Proof.
  intros Hvis. revert deps0 seen.
  induction descs as [|[desc|] descs IH]; intros deps0 seen Hu; simpl.
  - intros [= <- <-]. split; [done|]. intros d Hd. by apply elem_of_nil in Hd.
  - destruct (vis (rootToken desc) seen) as [seen1| |] eqn:E1; [|done..].
    destruct (Hvis _ _ _ Hu E1) as (Hu1 & Hnot).
    intros H. destruct (IH _ _ Hu1 H) as (Hu' & Hrest).
    split; [done|]. intros d [[= ->]|Hd]%elem_of_cons; [done|by apply Hrest].
  - intros H. destruct (IH _ _ Hu H) as (Hu' & Hrest).
    split; [done|]. intros d [?|Hd]%elem_of_cons; [done|by apply Hrest].
Qed.

Lemma visit_avoids fuel : avoids cookbook pantry cyc (visit cookbook pantry fuel).
Proof.
  induction fuel as [|fuel IH]; intros token seen seen' Hu; simpl; [done|].
  destruct (seen_has token seen) eqn:Eh.
  { intros [= <-]. split; [done|]. by apply Hu, seen_has_spec. }
  destruct (pantry !! token) as [entry|] eqn:Ep.
  { intros [= <-].
    assert (Hnot : ¬ resolvedIn cookbook pantry cyc token) by (intros [? _]; congruence).
    split; [by apply unseen_set|done]. }
  destruct (cookbook_get token cookbook) as [ctor|] eqn:Ec; [|done].
  destruct (visitDeps _ (paramDescs ctor) [] seen) as [[deps' seen1]| |] eqn:Ed; [|done..].
  destruct (visitDeps_avoids _ _ _ _ _ _ IH Hu Ed) as (Hu1 & Hdescs).
  intros [= <-].
  assert (Hnot : ¬ resolvedIn cookbook pantry cyc token).
  { intros (_ & c & Hc & Hcyc). rewrite Ec in Hc. injection Hc as <-.
    destruct (cyc_cyclic _ _ Ep Ec Hcyc) as (desc & Hd & Hon).
    by apply (Hdescs desc). }
  split; [by apply unseen_set|done].
Qed.

End TracerCycles.

Lemma visitDeps_notFound vis descs deps0 seen e :
  notFound vis →
  visitDeps vis descs deps0 seen = Throw e → ∃ missing, e = TraceTokenNotFound missing.
Proof.
  intros Hvis. revert deps0 seen.
  induction descs as [|[desc|] descs IH]; intros deps0 seen; simpl; [done| |apply IH].
  destruct (vis (rootToken desc) seen) as [seen1| |] eqn:E1; [apply IH| |done].
  intros [= <-]. by eapply Hvis.
Qed.

Lemma visit_notFound cookbook pantry fuel : notFound (visit cookbook pantry fuel).
Proof.
  induction fuel as [|fuel IH]; intros token seen e; simpl; [done|].
  destruct (seen_has token seen); [done|].
  destruct (pantry !! token); [done|].
  destruct (cookbook_get token cookbook) as [ctor|]; [|intros [= <-]; by eexists].
  destruct (visitDeps _ (paramDescs ctor) [] seen) as [[deps' seen1]|e'|] eqn:Ed; [done| |done].
  intros [= <-]. by eapply visitDeps_notFound.
Qed.

(** X6.  [trace] returns no lineage for a token that is resolved by a
    recipe class on a dependency cycle: whatever the fuel, it has not
    finished or it has thrown for a token that is not found.  Its [seen]
    map records a token only after the dependencies of the token have been
    visited, so it does not stop the recursion. *)
Theorem trace_never_returns_on_cycle cookbook pantry cyc root fuel :
  cyclic cookbook pantry cyc →
  resolvedIn cookbook pantry cyc root →
  trace cookbook pantry fuel root = OutOfFuel
  ∨ ∃ missing, trace cookbook pantry fuel root = Throw (TraceTokenNotFound missing).
Proof.
  intros Hcyc Hroot. unfold trace.
  destruct (visit cookbook pantry fuel root []) as [seen|e|] eqn:Ev.
  - destruct (visit_avoids cookbook pantry cyc Hcyc fuel root [] seen) as [_ Hnot];
      [|done|done].
    intros t Ht. by apply elem_of_nil in Ht.
  - right. destruct (visit_notFound _ _ _ _ _ _ Ev) as [missing ->]. by exists missing.
  - by left.
Qed.

Lemma trace_never_returns_on_cycle_witness :
  cyclic Cycle.cookbook Cycle.pantry Cycle.onCycle
  ∧ resolvedIn Cycle.cookbook Cycle.pantry Cycle.onCycle "Ping"
  ∧ trace Cycle.cookbook Cycle.pantry 50 "Ping" = OutOfFuel.
Proof.
  assert (Hping : resolvedIn Cycle.cookbook Cycle.pantry Cycle.onCycle "Ping").
  { split; [reflexivity|]. exists Cycle.Ping. split; [reflexivity|]. by left. }
  split; [exact cycle_cyclic|]. split; [exact Hping|].
  destruct (trace_never_returns_on_cycle Cycle.cookbook Cycle.pantry Cycle.onCycle
              "Ping" 50 cycle_cyclic Hping) as [H|[missing H]]; [exact H|].
  vm_compute in H. discriminate H.
Defined.

(** ** The trace of the items has no part in the selection *)

Lemma sort_fmap {A B} (f : A → B) (cmpA : A → A → Z) (cmpB : B → B → Z) l :
  (∀ a b, cmpB (f a) (f b) = cmpA a b) →
  JsArray.sort cmpB (f <$> l) = f <$> JsArray.sort cmpA l.
Proof.
  intros Hcmp.
  assert (Hins : ∀ x s, JsArray.insert cmpB (f x) (f <$> s) = f <$> JsArray.insert cmpA x s).
  { intros x s. induction s as [|y s IH]; simpl; [done|].
    rewrite Hcmp. destruct (cmpA x y <=? 0); [done|]. simpl. f_equal. exact IH. }
  induction l as [|x l IH]; [done|].
  change (JsArray.insert cmpB (f x) (JsArray.sort cmpB (f <$> l))
          = f <$> JsArray.insert cmpA x (JsArray.sort cmpA l)).
  rewrite IH. apply Hins.
Qed.

Lemma foldl_untraced {S} (step : S → Prepared.t → S) acc items :
  (∀ s p, step s (untraced p) = step s p) →
  foldl step acc (untraced <$> items) = foldl step acc items.
Proof.
  intros Hstep. revert acc. induction items as [|p items IH]; intros acc; simpl; [done|].
  by rewrite Hstep, IH.
Qed.

Lemma selectPlan_untraced budget items :
  selectPlan budget (untraced <$> items) = selectPlan budget items.
Proof.
  destruct budget as [b|]; simpl.
  - unfold candidates. rewrite <- fmap_drop.
    rewrite (sort_fmap untraced compareCandidates compareCandidates) by done.
    rewrite foldl_untraced by done. by destruct items.
  - by apply foldl_untraced.
Qed.

Lemma plating_untraced budget plan items acc acc' :
  includedLines acc = includedLines acc' →
  runningTotal acc = runningTotal acc' →
  includedLines (foldl (plateItem budget false plan) acc (untraced <$> items))
    = includedLines (foldl (plateItem budget true plan) acc' items)
  ∧ runningTotal (foldl (plateItem budget false plan) acc (untraced <$> items))
    = runningTotal (foldl (plateItem budget true plan) acc' items).
Proof.
  revert acc acc'. induction items as [|p items IH]; intros acc acc' Hl Ht; simpl; [done|].
  apply IH; unfold plateItem; simpl;
    destruct (plan !! Prepared.index p) as [d|]; simpl; try done;
    by rewrite ?Hl, ?Ht.
Qed.

Lemma serve_untraced budget items r :
  serve budget true items = Explained r →
  serve budget false (untraced <$> items) = ContextOnly (context r).
Proof.
  unfold serve. intros [= <-]. simpl. rewrite selectPlan_untraced.
  unfold plating. f_equal. f_equal. by apply plating_untraced.
Qed.

Section Quiet.

Variable cookbook : Cookbook.
Variable pantry : gmap string ProviderOrValue.
Variable JSON_stringify : value → completion string.

Lemma traceIf_state fuel explain token st entries st' :
  traceIf cookbook pantry fuel explain token st = (Ok entries, st') → st' = st.
Proof.
  unfold traceIf. destruct explain.
  - destruct (trace cookbook pantry fuel token); [|done..]. by intros [= _ <-].
  - by intros [= _ <-].
Qed.

Lemma prepareItem_quiet fuel options it st p st' :
  prepareItem cookbook pantry JSON_stringify fuel options it st = (Ok p, st') →
  prepareItem cookbook pantry JSON_stringify fuel (quiet options) it st
    = (Ok (untraced p), st').
Proof.
  assert (Hcount : countTokensFn (quiet options) = countTokensFn options)
    by by destruct options.
  assert (Hrank : rankPriorityFn (quiet options) = rankPriorityFn options)
    by by destruct options.
  assert (Hprobe : ∀ ctor, probeSummary cookbook pantry JSON_stringify fuel (quiet options) ctor
                     = probeSummary cookbook pantry JSON_stringify fuel options ctor).
  { intros ctor. unfold probeSummary. by rewrite Hcount. }
  assert (Hquiet : explainOf (quiet options) = false) by by destruct options.
  unfold prepareItem. rewrite Hcount, Hrank, Hquiet.
  unfold bind, ret, await. rewrite Hprobe.
  intros H.
  repeat match type of H with
         | context [match ?c with _ => _ end] =>
             let E := fresh "E" in destruct c eqn:E; try discriminate H
         end.
  injection H as <- <-.
  match goal with
  | E : traceIf _ _ _ _ _ _ = _ |- _ => apply traceIf_state in E as ->
  end.
  reflexivity.
Qed.

Lemma prepareItems_quiet fuel options its st ps st' :
  prepareItems cookbook pantry JSON_stringify fuel options its st = (Ok ps, st') →
  prepareItems cookbook pantry JSON_stringify fuel (quiet options) its st
    = (Ok (untraced <$> ps), st').
Proof.
  revert st ps st'. induction its as [|it its IH]; intros st ps st' H; simpl in *.
  - by injection H as <- <-.
  - invert_bind H. injection H as <- <-.
    unfold bind, ret. erewrite prepareItem_quiet by eassumption.
    by erewrite IH by eassumption.
Qed.

End Quiet.

(** X7.  Asking for the explanation changes neither the context nor the
    caches: when a call with [explain] returns a result, the same call
    without [explain] returns the context of that result and leaves the
    instance in the same state. *)
Theorem explain_leaves_context cookbook pantry stringify fuel options st r st' :
  cook cookbook pantry stringify fuel options st = (Ok (Explained r), st') →
  cook cookbook pantry stringify fuel (quiet options) st
    = (Ok (ContextOnly (context r)), st').
Proof.
  intros Hcook.
  destruct (cook_returns _ _ _ _ _ _ _ _ Hcook) as (items & Hprep & _ & _ & Hout).
  assert (Hexp : explainOf options = true).
  { destruct (explainOf options); [done|]. by unfold serve in Hout. }
  rewrite Hexp in Hout. symmetry in Hout.
  assert (Hord : orderListNormalized cookbook (quiet options)
                 = orderListNormalized cookbook options) by by destruct options.
  unfold cook, bind, ret. rewrite Hord.
  rewrite (prepareItems_quiet _ _ _ _ _ _ _ _ _ Hprep).
  assert (Hbud : budgetOf (quiet options) = budgetOf options) by by destruct options.
  assert (Hquiet : explainOf (quiet options) = false) by by destruct options.
  rewrite Hbud, Hquiet. by rewrite (serve_untraced _ _ _ Hout).
Qed.

Lemma explain_leaves_context_witness :
  cook Script.cookbook Script.pantry Json.stringify 5 (Script.options 3) fresh
    = (Ok (Explained (explainedOf Script_run)), snd Script_run)
  ∧ cook Script.cookbook Script.pantry Json.stringify 5 (quiet (Script.options 3)) fresh
    = (Ok (ContextOnly (context (explainedOf Script_run))), snd Script_run).
Proof.
  split; [vm_compute; reflexivity|].
  apply (explain_leaves_context Script.cookbook Script.pantry Json.stringify 5
           (Script.options 3) fresh _ (snd Script_run)).
  vm_compute; reflexivity.
Defined.

(** ** The caches of an instance *)

Section Caches.

Variable cookbook : Cookbook.
Variable pantry : gmap string ProviderOrValue.

Lemma grows_refl st : grows cookbook pantry st st.
Proof. by split. Qed.

Lemma grows_trans st1 st2 st3 :
  grows cookbook pantry st1 st2 → grows cookbook pantry st2 st3 →
  grows cookbook pantry st1 st3.
Proof. intros [H12 S12] [H23 S23]. split; [auto|set_solver]. Qed.

Lemma prepare_grows fuel token st r st' :
  prepare cookbook pantry fuel token st = (r, st') → grows cookbook pantry st st'.
Proof.
  revert token st r st'. induction fuel as [|fuel IH]; intros token st r st'.
  { intros [= _ <-]. apply grows_refl. }
  destruct (pantry !! token) as [entry|] eqn:Ep.
  { destruct (prepare_elsewhere cookbook pantry fuel token st) as [r0 ->]; [left; eauto|].
    intros [= _ <-]. apply grows_refl. }
  destruct (cookbook_get token cookbook) as [ctor|] eqn:Ec.
  2:{ destruct (prepare_elsewhere cookbook pantry fuel token st) as [r0 ->]; [by right|].
      intros [= _ <-]. apply grows_refl. }
  rewrite (prepare_recipe _ _ _ _ _ _ Ep Ec).
  destruct (valueCache st !! ctor_id ctor) as [cached|] eqn:Ev.
  { intros [= _ <-]. apply grows_refl. }
  intros H.
  unfold invokeRecipe_with, bind in H.
  destruct (getInstance ctor st) as [og stg] eqn:Eg.
  assert (Hg : og = Ok () ∧ grows cookbook pantry st stg
               ∧ ctor_id ctor ∈ instanceCache stg).
  { unfold getInstance in Eg. destruct (decide _) as [Hin|Hout]; injection Eg as <- <-.
    - split; [done|]. split; [apply grows_refl|done].
    - split; [done|]. split; [|simpl; set_solver].
      split; [|simpl; set_solver].
      intros (Hv & Hi & Hs). split; [exact Hv|]. split; simpl.
      + intros id Hid. apply Hi in Hid. set_solver.
      + intros id [->%elem_of_singleton|Hid]%elem_of_union; [|by apply Hs].
        by exists token, ctor. }
  destruct Hg as (-> & Hgg & Hid).
  destruct (resolveArgs (prepare cookbook pantry fuel) (paramDescs ctor) stg)
    as [o sta] eqn:Ea.
  apply (resolveArgs_step (grows cookbook pantry)) in Ea;
    [|apply grows_refl|apply grows_trans|exact IH].
  assert (Hga := grows_trans _ _ _ Hgg Ea).
  assert (Hida : ctor_id ctor ∈ instanceCache sta) by (destruct Ea; set_solver).
  destruct o as [args| |]; [|by injection H as _ <-..].
  unfold call_prepare in H.
  assert (Hcall : grows cookbook pantry sta
                    {| instanceCache := instanceCache sta;
                       valueCache := valueCache sta;
                       invoked := ctor_id ctor :: invoked sta |}).
  { split; [|done]. intros (Hv & Hi & Hs). split; simpl.
    - intros id Hc. apply elem_of_cons. right. by apply Hv.
    - split; [|exact Hs].
      intros id [->|Hc]%elem_of_cons; [done|by apply Hi]. }
  destruct (lift (recipe_prepare ctor args)) as [cooked| |];
    simpl in H; injection H as _ <-; [|by eapply grows_trans..].
  eapply grows_trans; [exact Hga|]. eapply grows_trans; [exact Hcall|].
  split; [|done]. intros (Hv & Hi & Hs). split; simpl; [|by split].
  intros id [v Hc]. simpl in *.
  destruct (decide (id = ctor_id ctor)) as [->|Hne]; [by left|].
  rewrite lookup_insert_ne in Hc by done. apply Hv. by exists v.
Qed.

End Caches.

(** X8.  The caches of an instance stay coherent over any sequence of
    [prepare] and [cook] calls: a value is cached only for a recipe class
    whose [prepare] was called, [prepare] is called only on a cached
    instance, an instance is made only of a class that some token resolves
    to (registered and not shadowed by the pantry), and no instance is ever
    dropped from the cache. *)
Theorem caches_stay_coherent cookbook pantry stringify st st' :
  coherent cookbook pantry st →
  later cookbook pantry stringify st st' →
  coherent cookbook pantry st' ∧ instanceCache st ⊆ instanceCache st'.
Proof.
  intros Hco Hlater.
  destruct (later_step cookbook pantry stringify (grows cookbook pantry)
              (grows_refl cookbook pantry) (grows_trans cookbook pantry)
              (prepare_grows cookbook pantry) st st' Hlater) as [Hkeep Hsub].
  split; [by apply Hkeep|done].
Qed.

Lemma caches_stay_coherent_witness :
  coherent Hitl.cookbook (Hitl.pantry "1234") fresh
  ∧ later Hitl.cookbook (Hitl.pantry "1234") Json.stringify fresh (snd (Hitl.run 100))
  ∧ coherent Hitl.cookbook (Hitl.pantry "1234") (snd (Hitl.run 100)).
Proof.
  assert (Hfresh : coherent Hitl.cookbook (Hitl.pantry "1234") fresh).
  { split; [|split].
    - intros id [v Hv]. simpl in Hv. by rewrite lookup_empty in Hv.
    - intros id Hid. by apply elem_of_nil in Hid.
    - intros id Hid. by apply elem_of_empty in Hid. }
  assert (Hlater : later Hitl.cookbook (Hitl.pantry "1234") Json.stringify fresh
                     (snd (Hitl.run 100))).
  { eapply later_cook; [apply later_now|].
    unfold Hitl.run. apply surjective_pairing. }
  split; [exact Hfresh|]. split; [exact Hlater|].
  exact (proj1 (caches_stay_coherent Hitl.cookbook (Hitl.pantry "1234") Json.stringify
                  fresh (snd (Hitl.run 100)) Hfresh Hlater)).
Defined.

(** ** The [@ingredient] decorator *)

Lemma array_set_length {A} i (x : A) arr :
  length (array_set i x arr) = (length arr `max` S i)%nat.
Proof.
  unfold array_set. destruct (Nat.ltb_spec i (length arr)).
  - rewrite length_insert. lia.
  - rewrite !length_app, length_replicate. simpl. lia.
Qed.

Lemma array_set_lookup {A} i (x : A) arr j :
  array_set i x arr !! j
  = if decide (j = i) then Some (Some x)
    else if decide (j < length arr)%nat then arr !! j
    else if decide (j < i)%nat then Some None
    else None.
Proof.
  unfold array_set. destruct (Nat.ltb_spec i (length arr)) as [Hin|Hout].
  - destruct (decide (j = i)) as [->|Hne].
    + by apply list_lookup_insert_eq.
    + rewrite list_lookup_insert_ne by done.
      destruct (decide (j < length arr)%nat); [done|].
      destruct (decide (j < i)%nat); [lia|].
      apply lookup_ge_None. lia.
  - destruct (decide (j = i)) as [->|Hne].
    + rewrite lookup_app_r by lia.
      rewrite lookup_app_r by (rewrite length_replicate; lia).
      rewrite length_replicate. by replace (i - length arr - (i - length arr))%nat with 0%nat by lia.
    + destruct (decide (j < length arr)%nat); [by apply lookup_app_l|].
      rewrite lookup_app_r by lia.
      destruct (decide (j < i)%nat).
      * rewrite lookup_app_l by (rewrite length_replicate; lia).
        apply lookup_replicate_2. lia.
      * apply lookup_ge_None. rewrite length_app, length_replicate. simpl. lia.
Qed.

Lemma array_set_written {A} i (x : A) arr : slotWritten i x arr (array_set i x arr).
Proof.
  split; [apply array_set_length|]. split; [|split].
  - rewrite array_set_lookup. by rewrite decide_True.
  - intros j Hne Hj. rewrite array_set_lookup.
    rewrite decide_False by done. by rewrite decide_True.
  - intros j [Hlo Hhi]. rewrite array_set_lookup.
    rewrite decide_False by lia. rewrite decide_False by lia. by rewrite decide_True.
Qed.

Lemma array_set_comm {A} i j (x y : A) arr :
  i ≠ j → array_set j y (array_set i x arr) = array_set i x (array_set j y arr).
Proof.
  intros Hne. apply list_eq. intros k.
  rewrite !array_set_lookup, !array_set_length.
  repeat (destruct (decide _)); try done; try lia.
  all: symmetry; try (apply lookup_ge_None; lia); try done.
Qed.

(** X9.  The [@ingredient] decorator throws, and stores nothing, exactly
    when the property key is [undefined] or the empty string.  Otherwise it
    writes the parsed descriptor at the index of the parameter: the stored
    array keeps the descriptors of the other parameters, holds a hole for
    each parameter below the index that is not decorated, and ends after
    the highest decorated parameter. *)
Theorem ingredient_writes_slot spec propertyKey parameterIndex metadata :
  match ingredient spec propertyKey parameterIndex metadata with
  | inl _ => key_truthy propertyKey = false
  | inr stored =>
      key_truthy propertyKey = true
      ∧ slotWritten parameterIndex (parseIngredientSpec spec)
          (default [] metadata) stored
  end.
Proof.
  unfold ingredient. destruct (key_truthy propertyKey); simpl; [|done].
  split; [done|]. apply array_set_written.
Qed.

(** X10.  The metadata of a method does not depend on the order in which
    its parameters are decorated: two [@ingredient] decorators for different
    parameters commute. *)
Theorem ingredient_order_irrelevant spec1 spec2 propertyKey i j metadata stored1 stored2 :
  i ≠ j →
  ingredient spec1 propertyKey i metadata = inr stored1 →
  ingredient spec2 propertyKey j metadata = inr stored2 →
  ingredient spec2 propertyKey j (Some stored1)
    = ingredient spec1 propertyKey i (Some stored2).
Proof.
  unfold ingredient. intros Hne.
  destruct (key_truthy propertyKey); simpl; [|done].
  intros [= <-] [= <-]. f_equal. by apply array_set_comm.
Qed.

Lemma ingredient_order_irrelevant_witness :
  ingredient "sessionId" (KeyString "prepare") 0
    (Some [None; Some (parseIngredientSpec "Payload.a.b[1]")])
  = ingredient "Payload.a.b[1]" (KeyString "prepare") 1
      (Some [Some (parseIngredientSpec "sessionId")]).
Proof.
  apply (ingredient_order_irrelevant "Payload.a.b[1]" "sessionId" (KeyString "prepare")
           1 0 None).
  - lia.
  - vm_compute; reflexivity.
  - vm_compute; reflexivity.
Defined.

(** X11.  The arguments that [invokeRecipe] collects follow the parameter
    metadata slot by slot, whatever the resolver does: a parameter without
    decorator gets [undefined], and a declared ingredient never does (the
    loop throws instead). *)
Theorem arguments_as_declared (prep : string → M value) descs st args st' :
  resolveArgs prep descs st = (Ok args, st') → Forall2 supplied descs args.
Proof.
  revert st args st'.
  induction descs as [|[desc|] descs IH]; intros st args st' H; simpl in H.
  - injection H as <- _. constructor.
  - invert_bind H. injection H as <- _. constructor; [by simpl|]. by eapply IH.
  - invert_bind H. injection H as <- _. constructor; [by simpl|]. by eapply IH.
Qed.

Lemma arguments_as_declared_witness :
  resolveArgs (prepare SubPath.cookbook SubPath.pantry 2) [None; Some SubPath.second] fresh
    = (Ok [VUndefined; VNum 20], fresh)
  ∧ Forall2 supplied [None; Some SubPath.second] [VUndefined; VNum 20].
Proof.
  split; [vm_compute; reflexivity|].
  apply (arguments_as_declared (prepare SubPath.cookbook SubPath.pantry 2)
           [None; Some SubPath.second] fresh [VUndefined; VNum 20] fresh).
  vm_compute; reflexivity.
Defined.

(** ** The arrangement of the candidates *)

Lemma sorted_unique {A} (R : A → A → Prop) (l1 l2 : list A) :
  (∀ x y, x ∈ l1 → y ∈ l1 → R x y → R y x → x = y) →
  (∀ x, R x x) →
  StronglySorted R l1 → StronglySorted R l2 → Permutation l1 l2 → l1 = l2.
Proof.
  intros Hanti Hrefl Hs1. revert l2 Hanti.
  induction Hs1 as [|x l1 Hs1 IH Hx]; intros l2 Hanti Hs2 Hperm.
  { by apply Permutation_nil_l in Hperm. }
  destruct Hs2 as [|y l2 Hs2 Hy].
  { by apply Permutation_nil_r in Hperm. }
  rewrite Forall_forall in Hx. rewrite Forall_forall in Hy.
  assert (Hxy : R x y).
  { assert (Hin : y ∈ x :: l1) by (rewrite Hperm; left).
    apply elem_of_cons in Hin as [->|Hin]; [apply Hrefl|by apply Hx]. }
  assert (Hyx : R y x).
  { assert (Hin : x ∈ y :: l2) by (rewrite <- Hperm; left).
    apply elem_of_cons in Hin as [->|Hin]; [apply Hrefl|by apply Hy]. }
  assert (x = y) as <-.
  { apply Hanti; [left|rewrite Hperm; left|done..]. }
  f_equal. apply IH; [|done|by apply Permutation_cons_inv in Hperm].
  intros a b Ha Hb. apply Hanti; by right.
Qed.

(** X12.  The comparator of the sort leaves no choice: any arrangement of
    the items after the first that is sorted by it is the arrangement that
    [cook] plans in.  The planning order therefore does not depend on the
    sorting algorithm, nor on its stability. *)
Theorem planning_order_unique items arranged :
  indexed items →
  Permutation arranged (drop 1 items) →
  StronglySorted (precedes compareCandidates) arranged →
  arranged = candidates items.
Proof.
  intros Hix Hperm Hsorted.
  apply (sorted_unique (precedes compareCandidates)).
  - intros a b Ha Hb Hab Hba. unfold precedes in Hab, Hba.
    rewrite compareCandidates_le in Hab. rewrite compareCandidates_le in Hba.
    assert (Hidx : Prepared.index a = Prepared.index b)
      by (unfold plannedBefore in Hab, Hba; lia).
    rewrite Hperm in Ha, Hb.
    apply list_elem_of_lookup in Ha as [i Hi]. apply list_elem_of_lookup in Hb as [j Hj].
    rewrite lookup_drop in Hi. rewrite lookup_drop in Hj.
    assert (Hij : (1 + i = 1 + j)%nat)
      by (rewrite <- (Hix _ _ Hi), <- (Hix _ _ Hj); exact Hidx).
    rewrite Hij in Hi. congruence.
  - intros a. unfold precedes. rewrite compareCandidates_le.
    unfold plannedBefore. lia.
  - exact Hsorted.
  - apply candidates_sorted.
  - rewrite Hperm. symmetry. apply candidates_perm.
Qed.

Lemma planning_order_unique_witness :
  indexed Menu
  ∧ [plain 2 "Rules" "No secrets." 3 100;
     plain 1 "History" "user: hello there, how are you" 8 25] = candidates Menu.
Proof.
  assert (Hix : indexed Menu).
  { intros [|[|[|i]]] p Hp; simpl in Hp; try discriminate Hp;
      injection Hp as <-; reflexivity. }
  split; [exact Hix|].
  apply (planning_order_unique Menu _ Hix).
  - apply perm_swap.
  - repeat constructor. unfold precedes. vm_compute. discriminate.
Defined.

(** ** Ingredient specs *)

Lemma indexOf_dot_cons_None c s :
  JsString.indexOf_dot (String c s) = None →
  Ascii.eqb c "."%char = false ∧ JsString.indexOf_dot s = None.
Proof.
  simpl. destruct (Ascii.eqb c "."%char); [done|].
  by destruct (JsString.indexOf_dot s).
Qed.




Lemma trimStart_nodot s :
  JsString.indexOf_dot s = None → JsString.indexOf_dot (JsString.trimStart s) = None.
Proof.
  induction s as [|c s IH]; intros H; [done|]. simpl.
  destruct (JsString.is_space c); [|done].
  apply IH. by apply indexOf_dot_cons_None in H as [_ H].
Qed.

Lemma rev_acc_nodot s acc :
  JsString.indexOf_dot s = None → JsString.indexOf_dot acc = None →
  JsString.indexOf_dot (JsString.rev_acc s acc) = None.
Proof.
  revert acc. induction s as [|c s IH]; intros acc Hs Hacc; [done|].
  apply indexOf_dot_cons_None in Hs as [Hc Hs]. simpl. apply IH; [done|].
  simpl. by rewrite Hc, Hacc.
Qed.

Lemma trim_nodot s :
  JsString.indexOf_dot s = None → JsString.indexOf_dot (JsString.trim s) = None.
Proof.
  intros H. unfold JsString.trim, JsString.reverse.
  apply rev_acc_nodot; [|done]. apply trimStart_nodot.
  apply rev_acc_nodot; [|done]. by apply trimStart_nodot.
Qed.

Lemma slice_to_nodot s i :
  JsString.indexOf_dot s = Some i →
  JsString.indexOf_dot (JsString.slice_to i s) = None.
Proof.
  revert i. induction s as [|c s IH]; intros i; [done|]. simpl.
  destruct (Ascii.eqb c "."%char) eqn:Ec; [by intros [= <-]|].
  destruct (JsString.indexOf_dot s) as [k|]; [|done].
  intros [= <-]. simpl. by rewrite Ec, (IH k).
Qed.



(** X14.  The root token of an ingredient never contains a dot, whatever
    the spec: a token with a dot in its name cannot be asked for as an
    ingredient, its first dot starts a sub-path. *)
Theorem ingredient_root_has_no_dot spec :
  JsString.indexOf_dot (rootToken (parseIngredientSpec spec)) = None.
Proof.
  unfold parseIngredientSpec.
  destruct (JsString.indexOf_dot spec) as [i|] eqn:Ei; simpl; [|done].
  apply trim_nodot. by apply slice_to_nodot.
Qed.

(** ** A pantry entry under a registered token *)



(** ** What a returning [cook] call has resolved *)

Section Resolved.

Variable cookbook : Cookbook.
Variable pantry : gmap string ProviderOrValue.
Variable stringify : value → completion string.

Lemma baselinePhase_prepared fuel options it st base st0 :
  baselinePhase cookbook pantry stringify fuel options it st = (Ok base, st0) →
  ∃ v, prepare cookbook pantry fuel (order_token it) st = (Ok v, st0).
Proof.
  unfold baselinePhase. intros H. invert_bind H. injection H as _ <-. by eexists.
Qed.

Lemma resolvedAt_keeps token st st' :
  (∀ id v, keeps id v st st') →
  resolvedAt cookbook pantry st token → resolvedAt cookbook pantry st' token.
Proof.
  unfold resolvedAt. intros Hkeeps. destruct (pantry !! token); [done|].
  intros (ctor & v & Hc & Hv). exists ctor, v. split; [done|].
  by apply (Hkeeps (ctor_id ctor) v).
Qed.

Lemma prepareItem_resolved fuel options it st p st' :
  prepareItem cookbook pantry stringify fuel options it st = (Ok p, st') →
  resolvedAt cookbook pantry st' (order_token it).
Proof.
  rewrite prepareItem_phases. unfold bind at 1.
  destruct (baselinePhase cookbook pantry stringify fuel options it st)
    as [[base| |] st0] eqn:Eb; [|done..].
  apply baselinePhase_prepared in Eb as [v Ep].
  unfold bind at 1.
  destruct (probeSummary cookbook pantry stringify fuel options _ st0)
    as [[fb| |] st1] eqn:Es; [|done..].
  intros H. apply finishItem_step in H as ->.
  apply (resolvedAt_keeps _ st0).
  { intros id w. eapply (probeSummary_step cookbook pantry stringify (keeps id w));
      [apply keeps_refl|apply prepare_keeps|exact Es]. }
  unfold resolvedAt. destruct (pantry !! order_token it) eqn:Hp; [done|].
  destruct (cookbook_get (order_token it) cookbook) as [ctor|] eqn:Ec.
  - exists ctor, v. split; [done|]. by eapply prepare_cached.
  - destruct fuel as [|fuel]; simpl in Ep; [done|]. by rewrite Hp, Ec in Ep.
Qed.

Lemma prepareItems_resolved fuel options its st ps st' :
  prepareItems cookbook pantry stringify fuel options its st = (Ok ps, st') →
  Forall (λ it, resolvedAt cookbook pantry st' (order_token it)) its.
Proof.
  revert st ps st'. induction its as [|it its IH]; intros st ps st' H; simpl in H.
  - constructor.
  - unfold bind at 1 in H.
    destruct (prepareItem cookbook pantry stringify fuel options it st)
      as [[p| |] st0] eqn:E0; [|done..].
    unfold bind at 1 in H.
    destruct (prepareItems cookbook pantry stringify fuel options its st0)
      as [[ps'| |] st1] eqn:E1; [|done..].
    injection H as _ <-. constructor; [|by eapply IH].
    apply (resolvedAt_keeps _ st0); [|by eapply prepareItem_resolved].
    intros id w. eapply (prepareItems_step cookbook pantry stringify (keeps id w));
      [apply keeps_refl|apply keeps_trans|apply prepare_keeps|exact E1].
Qed.

End Resolved.

(** X16.  A [cook] call that returns has resolved its whole order, also
    the items that it dropped: every ordered token is held by the pantry or
    registered to a recipe class, and the value of that class is cached when
    the call returns.  An order with a token that is neither makes the call
    throw, whatever the budget. *)
Theorem cook_resolves_whole_order cookbook pantry stringify fuel options st out st' :
  cook cookbook pantry stringify fuel options st = (Ok out, st') →
  Forall (λ it, resolvedAt cookbook pantry st' (order_token it))
    (orderListNormalized cookbook options).
Proof.
  intros H. apply cook_returns in H as (items & Hprep & _).
  by eapply prepareItems_resolved.
Qed.

Lemma cook_resolves_whole_order_witness :
  cook Script.cookbook Script.pantry Json.stringify 5 (Script.options 3) fresh
    = (Ok (Explained (explainedOf Script_run)), snd Script_run)
  ∧ Forall (λ it, resolvedAt Script.cookbook Script.pantry (snd Script_run) (order_token it))
      (orderListNormalized Script.cookbook (Script.options 3)).
Proof.
  split; [vm_compute; reflexivity|].
  apply (cook_resolves_whole_order Script.cookbook Script.pantry Json.stringify 5
           (Script.options 3) fresh (Explained (explainedOf Script_run))).
  vm_compute; reflexivity.
Defined.

(** ** A budget that is large enough *)








(** ** The lineage on the plates *)

Section Traced.

Variable cookbook : Cookbook.
Variable pantry : gmap string ProviderOrValue.
Variable stringify : value → completion string.

Lemma prepareItem_traced fuel options it st p st' :
  explainOf options = true →
  prepareItem cookbook pantry stringify fuel options it st = (Ok p, st') →
  traced cookbook pantry fuel (Prepared.token p) (Prepared.trace p).
Proof.
  intros He. rewrite prepareItem_phases. unfold bind at 1.
  destruct (baselinePhase cookbook pantry stringify fuel options it st)
    as [[base| |] st0]; [|done..].
  unfold bind at 1.
  destruct (probeSummary cookbook pantry stringify fuel options _ st0)
    as [[fb| |] st1]; [|done..].
  unfold finishItem, bind, await, ret, traceIf. rewrite He.
  destruct (lift (rankPriorityFn options _)) as [score| |]; [|done..].
  destruct (trace cookbook pantry fuel (order_token it)) as [es| |] eqn:Et; [|done..].
  intros [= <- _]. by exists es.
Qed.

Lemma prepareItems_traced fuel options its st ps st' :
  explainOf options = true →
  prepareItems cookbook pantry stringify fuel options its st = (Ok ps, st') →
  Forall (λ p, traced cookbook pantry fuel (Prepared.token p) (Prepared.trace p)) ps.
Proof.
  intros He. revert st ps st'.
  induction its as [|it its IH]; intros st ps st' H; simpl in H.
  - injection H as <- _. constructor.
  - unfold bind at 1 in H.
    destruct (prepareItem cookbook pantry stringify fuel options it st)
      as [[p| |] st0] eqn:E0; [|done..].
    unfold bind at 1 in H.
    destruct (prepareItems cookbook pantry stringify fuel options its st0)
      as [[ps'| |] st1] eqn:E1; [|done..].
    injection H as <- _. constructor; [by eapply prepareItem_traced|by eapply IH].
Qed.

End Traced.

(** X18.  Every plate of an explained result, dropped or not, carries the
    lineage that [trace] returns for its token, and that is a lineage of
    the token: it depends on the pantry and the cookbook alone, not on what
    the instance has cached. *)
Theorem plates_carry_lineage cookbook pantry stringify fuel options st r st' :
  cook cookbook pantry stringify fuel options st = (Ok (Explained r), st') →
  Forall (λ pl, trace cookbook pantry fuel (Plate.token pl) = Ok (Plate.lineage pl)
                ∧ lineageOf cookbook pantry (Plate.token pl) (Plate.lineage pl))
    (plates r).
Proof.
  intros Hcook.
  destruct (cook_returns _ _ _ _ _ _ _ _ Hcook) as (items & Hprep & _ & Hix & Hout).
  assert (Hexp : explainOf options = true).
  { destruct (explainOf options); [done|]. by unfold serve in Hout. }
  rewrite Hexp in Hout. symmetry in Hout.
  destruct (serve_plated _ _ _ Hix Hout) as (HF & _).
  pose proof (prepareItems_traced _ _ _ _ _ _ _ _ _ Hexp Hprep) as Htr.
  apply Forall_lookup_2. intros i pl Hpl.
  destruct (Forall2_lookup_r _ _ _ _ _ HF Hpl) as (p & Hp & d & b1 & a1 & _ & ->).
  destruct (Forall_lookup_1 _ _ _ _ Htr Hp) as (es & Hes & Ht).
  simpl. rewrite Hes. simpl. split; [done|].
  unfold trace in Ht.
  destruct (visit cookbook pantry fuel (Prepared.token p) []) as [seen| |] eqn:Ev;
    [|done..].
  injection Ht as <-. by eapply visit_lineage.
Qed.

Lemma plates_carry_lineage_witness :
  cook Hitl.cookbook (Hitl.pantry "1234") Json.stringify 5 (Hitl.options 100) fresh
    = (Ok (Explained (explainedOf (Hitl.run 100))), snd (Hitl.run 100))
  ∧ Forall (λ pl, trace Hitl.cookbook (Hitl.pantry "1234") 5 (Plate.token pl)
                    = Ok (Plate.lineage pl)
                  ∧ lineageOf Hitl.cookbook (Hitl.pantry "1234")
                      (Plate.token pl) (Plate.lineage pl))
      (plates (explainedOf (Hitl.run 100))).
Proof.
  split; [vm_compute; reflexivity|].
  apply (plates_carry_lineage Hitl.cookbook (Hitl.pantry "1234") Json.stringify 5
           (Hitl.options 100) fresh _ (snd (Hitl.run 100))).
  vm_compute; reflexivity.
Defined.

(** ** Registration and the default tokenizer *)

(** X19.  The [cookbook] decorator registers a class under its static
    token, or under its class name when it has none: afterwards that token
    resolves to the class, also when another class held the token before,
    and every other token resolves as it did. *)
Theorem register_lookup ctor cb token :
  cookbook_get token (register ctor cb)
  = if decide (token = registeredAs ctor) then Some ctor else cookbook_get token cb.
Proof.
  unfold register, registeredAs.
  generalize (default (name ctor) (static_token ctor)). intros key.
  induction cb as [|[k c] cb IH]; simpl.
  - destruct (String.eqb_spec key token) as [->|Hne].
    + by rewrite decide_True.
    + by rewrite decide_False.
  - destruct (String.eqb_spec k key) as [->|Hk]; simpl.
    + destruct (String.eqb_spec key token) as [->|Hne].
      * by rewrite decide_True.
      * by rewrite decide_False.
    + rewrite IH. destruct (String.eqb_spec k token) as [->|Hne]; [|done].
      by rewrite decide_False.
Qed.

(** X20.  The fallback tokenizer never throws and counts one token for
    every four characters, rounded up: its result is the least number of
    tokens whose fourfold covers the length of the text. *)
Theorem default_tokenizer_is_ceiling text :
  ∃ cost,
    countTokensDefault text = Return cost
    ∧ 4 * (cost - 1) < Z.of_nat (String.length text) <= 4 * cost.
Proof.
  exists ((Z.of_nat (String.length text) + 3) / 4). split; [reflexivity|].
  pose proof (Z.div_mod (Z.of_nat (String.length text) + 3) 4) as Hdiv.
  pose proof (Z.mod_pos_bound (Z.of_nat (String.length text) + 3) 4) as Hmod.
  lia.
Qed.

(** ** The tracer on acyclic dependencies *)

Section TracerTotal.

Variable cookbook : Cookbook.
Variable pantry : gmap string ProviderOrValue.

Lemma visitDeps_visited n descs :
  (∀ desc, Some desc ∈ descs → visited cookbook pantry (rootToken desc) n) →
  ∀ deps seen, ∃ deps' seen',
    ∀ fuel, (n ≤ fuel)%nat →
      visitDeps (visit cookbook pantry fuel) descs deps seen = Ok (deps', seen').
Proof.
  induction descs as [|[desc|] descs IH]; intros Hall deps seen; simpl.
  - by exists deps, seen.
  - destruct (Hall desc (list_elem_of_here _ _) seen) as (seen1 & H1).
    destruct (IH (λ d Hd, Hall d (list_elem_of_further _ _ _ Hd))
                (deps ++ [(rootToken desc, via_of desc)])%list seen1)
      as (deps' & seen' & H').
    exists deps', seen'. intros fuel Hf. by rewrite (H1 _ Hf), (H' _ Hf).
  - apply IH. intros d Hd. apply Hall. by right.
Qed.

Lemma visit_visited rank root :
  acyclicFrom cookbook pantry rank root →
  (∀ t, rtc (dependsOn cookbook pantry) root t → known cookbook pantry t) →
  ∀ n t, rtc (dependsOn cookbook pantry) root t → (rank t < n)%nat →
         visited cookbook pantry t n.
Proof.
  intros Hacyclic Hknown. induction n as [|n IH]; intros t Hreach Hrank; [lia|].
  intros seen.
  destruct (seen_has t seen) eqn:Eh.
  { exists seen. intros [|fuel] Hf; [lia|]. simpl. by rewrite Eh. }
  destruct (pantry !! t) as [entry|] eqn:Ep.
  { eexists. intros [|fuel] Hf; [lia|]. simpl. by rewrite Eh, Ep. }
  destruct (cookbook_get t cookbook) as [ctor|] eqn:Ec.
  2:{ destruct (Hknown t Hreach) as [[? H]|[? H]]; congruence. }
  destruct (visitDeps_visited n (paramDescs ctor)) with (deps := @nil (string * string))
    (seen := seen) as (deps' & seen' & Hd).
  { intros desc Hdesc.
    assert (Hdep : dependsOn cookbook pantry t (rootToken desc)).
    { split; [done|]. by exists ctor, desc. }
    apply IH.
    - eapply rtc_r; eassumption.
    - specialize (Hacyclic t (rootToken desc) Hreach Hdep). lia. }
  eexists. intros [|fuel] Hf; [lia|]. simpl. rewrite Eh, Ep, Ec.
  by rewrite (Hd fuel) by lia.
Qed.

End TracerTotal.

(** X21.  [trace] returns for every token whose dependencies are acyclic
    and known: when the tokens reachable from the root descend along a rank
    and each is held by the pantry or registered, the call returns one and
    the same lineage for every fuel above the rank of the root. *)
Theorem trace_returns_when_acyclic cookbook pantry rank root :
  acyclicFrom cookbook pantry rank root →
  (∀ t, rtc (dependsOn cookbook pantry) root t → known cookbook pantry t) →
  ∃ entries,
    ∀ fuel, (rank root < fuel)%nat → trace cookbook pantry fuel root = Ok entries.
Proof.
  intros Hacyclic Hknown.
  destruct (visit_visited cookbook pantry rank root Hacyclic Hknown
              (S (rank root)) root (rtc_refl _ _) (Nat.lt_succ_diag_r _) [])
    as (seen & Hseen).
  exists (map snd seen). intros fuel Hf. unfold trace. by rewrite (Hseen fuel) by lia.
Qed.

Lemma trace_returns_when_acyclic_witness :
  acyclicFrom Cycle.cookbook Cycle.pantry Cycle.rank "Echo"
  ∧ ∃ entries,
      ∀ fuel, (Cycle.rank "Echo" < fuel)%nat →
              trace Cycle.cookbook Cycle.pantry fuel "Echo" = Ok entries.
Proof.
  split; [exact cycle_acyclic_from_echo|].
  apply (trace_returns_when_acyclic Cycle.cookbook Cycle.pantry Cycle.rank "Echo"
           cycle_acyclic_from_echo).
  apply (rtc_ind_r (λ t, known Cycle.cookbook Cycle.pantry t)).
  - right. by eexists.
  - intros y z _ Hyz _. destruct Hyz as (_ & ctor & desc & Hc & Hd & <-).
    apply cookbook_get_elem in Hc.
    repeat (apply elem_of_cons in Hc as [[= -> ->]|Hc]);
      [| | |by apply elem_of_nil in Hc];
      simpl in Hd; apply list_elem_of_singleton in Hd; injection Hd as ->.
    + right. by eexists.
    + right. by eexists.
    + left. by eexists.
Defined.
